(** * NSGA-II sampler: a shallow embedding of
      [optuna/samplers/nsgaii/_sampler.py] and of the strategies it wires.

    Python integers are [Z], floats are idealised as rationals [Q],
    dictionaries are [gmap]s, and the methods of the sampler are computations
    in a small state-and-exception monad over an explicit [World]: the trial
    store, the two random generators, the operating system's entropy and the
    trace of strategy invocations. *)

From Stdlib Require Import ZArith QArith Qminmax Lqa Lia.
From stdpp Require Import base tactics option list sorting gmap strings fin_maps.

Local Open Scope Z_scope.

(** ** Data model *)

(** [optuna.trial.TrialState]. *)
Inductive TrialState := RUNNING | COMPLETE | PRUNED | FAIL | WAITING.

#[global] Instance TrialState_eq_dec : EqDecision TrialState.
Proof. solve_decision. Defined.

(** [optuna.study.StudyDirection], one per objective. *)
Inductive StudyDirection := MINIMIZE | MAXIMIZE.

(** A sampled parameter value ([Any] in the source). *)
Inductive ParamValue :=
| PFloat (q : Q)
| PInt (z : Z)
| PCategory (label : string).

(** [FrozenTrial]: the candidate of the data model.  [number] is the
    sequential identifier, [values] the objective vector (absent until the
    trial is evaluated), [constraints] the recorded constraint values (absent
    unless constraints are used). *)
Record FrozenTrial := mkTrial {
  number : Z;
  state : TrialState;
  params : gmap string ParamValue;
  values : option (list Q);
  constraints : option (list Q);
}.

Record Study := mkStudy {
  directions : list StudyDirection;
}.

Inductive Exn := ValueError | AssertionError | UserError.

Inductive Result (A : Type) :=
| Ok (a : A)
| Raise (e : Exn).
Arguments Ok {A} a.
Arguments Raise {A} e.

(** ** Domination comparator *)

Definition Qlt_bool (x y : Q) : bool := negb (Qle_bool y x).

(** Modelled from the spec: the domination comparator of the elite selection
    module, whose code is not in [_sampler.py].  Feasibility: every constraint
    value is at most 0, or no constraints were supplied. *)
Definition feasible (c : FrozenTrial) : bool :=
  match constraints c with
  | None => true
  | Some cs => forallb (λ v, Qle_bool v 0) cs
  end.

(** Modelled from the spec: the comparator's total violation, the sum of the
    constraint values that are larger than 0. *)
Definition total_violation (c : FrozenTrial) : Q :=
  match constraints c with
  | None => 0%Q
  | Some cs => foldr (λ v acc, if Qle_bool v 0 then acc else (v + acc)%Q) 0%Q cs
  end.

(** Modelled from the spec: the comparator normalises each objective to
    "smaller is better" by its direction. *)
Definition normalize (d : StudyDirection) (v : Q) : Q :=
  match d with
  | MINIMIZE => v
  | MAXIMIZE => (- v)%Q
  end.

(** Modelled from the spec: "no worse on every objective", on two normalised
    vectors of the same length. *)
Fixpoint no_worse (xs ys : list Q) : bool :=
  match xs, ys with
  | [], [] => true
  | x :: xs', y :: ys' => Qle_bool x y && no_worse xs' ys'
  | _, _ => false
  end.

(** Modelled from the spec: "strictly better on at least one objective". *)
Fixpoint strictly_better (xs ys : list Q) : bool :=
  match xs, ys with
  | x :: xs', y :: ys' => Qlt_bool x y || strictly_better xs' ys'
  | _, _ => false
  end.

(** Modelled from the spec: Pareto dominance of the comparator, on two
    candidates that both carry objective values: no worse on every objective
    and strictly better on at least one. *)
Definition pareto_dominates (ds : list StudyDirection) (a b : FrozenTrial) : bool :=
  match values a, values b with
  | Some va, Some vb =>
      let xs := zip_with normalize ds va in
      let ys := zip_with normalize ds vb in
      no_worse xs ys && strictly_better xs ys
  | _, _ => false
  end.

(** Modelled from the spec: [dominates(a, b)] of the domination comparator.
    With constraints enabled the feasible candidate dominates the infeasible
    one, two infeasible candidates compare by total violation, and two
    feasible ones by Pareto dominance; with constraints disabled the
    feasibility branch is skipped. *)
Definition dominates (is_constrained : bool) (ds : list StudyDirection)
    (a b : FrozenTrial) : bool :=
  if is_constrained then
    match feasible a, feasible b with
    | true, false => true
    | false, true => false
    | false, false => Qlt_bool (total_violation a) (total_violation b)
    | true, true => pareto_dominates ds a b
    end
  else pareto_dominates ds a b.

(** ** Elite population selector *)

Section Selection.

Variable is_constrained : bool.
Variable ds : list StudyDirection.

(** Modelled from the spec: a candidate is dominated within a pool when some
    member of the pool constrained-dominates it. *)
Definition is_dominated (pool : list FrozenTrial) (c : FrozenTrial) : bool :=
  existsb (λ d, dominates is_constrained ds d c) pool.

(** Modelled from the spec: the front of a pool, its members that no other
    member dominates. *)
Definition front_of (pool : list FrozenTrial) : list FrozenTrial :=
  List.filter (λ c, negb (is_dominated pool c)) pool.

(** Modelled from the spec: what is left of a pool once its front has been
    removed. *)
Definition settle (pool : list FrozenTrial) : list FrozenTrial :=
  List.filter (λ c, is_dominated pool c) pool.

(** Modelled from the spec: step 1 of the elite population selector,
    non-dominated sorting by repeatedly removing the settled front.  The fuel
    bounds the number of fronts; [nondominated_sort] supplies the size of the
    pool, which is enough since every front of a non-empty pool is
    non-empty. *)
Fixpoint fronts (fuel : nat) (pool : list FrozenTrial) : list (list FrozenTrial) :=
  match fuel with
  | O => []
  | S fuel' =>
      match pool with
      | [] => []
      | _ => front_of pool :: fronts fuel' (settle pool)
      end
  end.

(** Modelled from the spec: the fronts of a pool, in increasing rank. *)
Definition nondominated_sort (pool : list FrozenTrial) : list (list FrozenTrial) :=
  fronts (length pool) pool.

(** Modelled from the spec: a crowding distance, a rational or unbounded for
    a boundary point. *)
Inductive Distance := Finite (q : Q) | Unbounded.

Definition dist_add (d1 d2 : Distance) : Distance :=
  match d1, d2 with
  | Finite a, Finite b => Finite (a + b)%Q
  | _, _ => Unbounded
  end.

Definition dist_gtb (d1 d2 : Distance) : bool :=
  match d1, d2 with
  | Unbounded, Finite _ => true
  | Finite a, Finite b => Qlt_bool b a
  | _, _ => false
  end.

Definition dist_eqb (d1 d2 : Distance) : bool :=
  match d1, d2 with
  | Unbounded, Unbounded => true
  | Finite a, Finite b => Qeq_bool a b
  | _, _ => false
  end.

(** Modelled from the spec: the [k]-th objective of a candidate. *)
Definition objective (k : nat) (c : FrozenTrial) : Q :=
  default 0%Q (values c ≫= (.!! k)).

(** Modelled from the spec: the front with its members numbered, sorted by
    the [k]-th objective. *)
Definition sorted_by_objective (k : nat) (front : list FrozenTrial)
    : list (nat * FrozenTrial) :=
  merge_sort (λ x y, Is_true (Qle_bool (objective k x.2) (objective k y.2)))
             (imap (λ i c, (i, c)) front).

(** Modelled from the spec: what the [k]-th objective adds to the distance of
    the member at position
    [j] of the sorted front, unbounded at the two boundaries and otherwise
    the gap between the two neighbours divided by the width of the front. *)
Definition gap (k : nat) (s : list (nat * FrozenTrial)) (j : nat) : Distance :=
  match j with
  | O => Unbounded
  | S j' =>
      match s !! j', s !! S (S j'), head s, last s with
      | Some p, Some n, Some lo, Some hi =>
          Finite ((objective k n.2 - objective k p.2)
                  / (objective k hi.2 - objective k lo.2))%Q
      | _, _, _, _ => Unbounded
      end
  end.

(** Modelled from the spec: the share of the [k]-th objective in the distance
    of member [i] of a front. *)
Definition contribution (k : nat) (front : list FrozenTrial) (i : nat) : Distance :=
  let s := sorted_by_objective k front in
  match list_find (λ x, x.1 = i) s with
  | Some (j, _) => gap k s j
  | None => Finite 0
  end.

(** Modelled from the spec: step 3 of the elite population selector, the
    crowding distance of member [i] within one front, summed over the
    objectives. *)
Definition crowding_distance (front : list FrozenTrial) (i : nat) : Distance :=
  foldr dist_add (Finite 0) ((λ k, contribution k front i) <$> seq 0 (length ds)).

(** Modelled from the spec: step 4's order, descending crowding distance with
    ties broken by the candidate identifier. *)
Definition crowding_before (front : list FrozenTrial) (x y : nat * FrozenTrial) : bool :=
  let dx := crowding_distance front x.1 in
  let dy := crowding_distance front y.1 in
  dist_gtb dx dy || (dist_eqb dx dy && (number x.2 <=? number y.2)).

(** Modelled from the spec: a front in step 4's order. *)
Definition crowding_sort (front : list FrozenTrial) : list FrozenTrial :=
  snd <$> merge_sort (λ x y, Is_true (crowding_before front x y))
                     (imap (λ i c, (i, c)) front).

(** Modelled from the spec: steps 2 to 4 of the elite population selector.
    Whole fronts are added while the result stays at or under [target_size];
    the first front that would overflow fills the remaining slots by crowding
    distance. *)
Fixpoint fill (target_size : nat) (acc : list FrozenTrial)
    (fs : list (list FrozenTrial)) : list FrozenTrial :=
  match fs with
  | [] => acc
  | f :: fs' =>
      if (length acc + length f <=? target_size)%nat
      then fill target_size (acc ++ f) fs'
      else acc ++ take (target_size - length acc) (crowding_sort f)
  end.

(** Modelled from the spec: [select(pool, target_size)] of the elite
    population selector (class [NSGAIIElitePopulationSelectionStrategy], whose
    code is not in [_sampler.py]). *)
Definition select (pool : list FrozenTrial) (target_size : nat) : list FrozenTrial :=
  fill target_size [] (nondominated_sort pool).

End Selection.

(** The collaborators outside this repository's sampler package, taken at
    their interface:
    - [Distribution] with [single] is [BaseDistribution];
    - [RandomState] is [numpy.random.RandomState]: [rng_seed_int z] is
      [seed(z)], [rng_seed_entropy e] is [seed()] with no argument, which
      rebuilds the state from data [e] read from the operating system,
      [rng_rand] is [rand()] and [rng_choice n] is [choice(n)];
    - [uniform_crossover swapping_prob] is the operator of
      [UniformCrossover(swapping_prob)];
    - [RandomSampler] is the bootstrap sampler, which owns a generator of its
      own and is handed neither the constraints function nor a strategy. *)
Class Externals := {
  Distribution : Type;
  single : Distribution → bool;
  RandomState : Type;
  rng_seed_int : Z → RandomState;
  rng_seed_entropy : Z → RandomState;
  rng_rand : RandomState → Q * RandomState;
  rng_choice : nat → RandomState → nat * RandomState;
  uniform_crossover :
    Q → list FrozenTrial → gmap string Distribution → RandomState → Q →
    gmap string ParamValue * RandomState;
  RandomSampler : Type;
  rs_init : RandomState → RandomSampler;
  rs_reseed_rng : Z → RandomSampler → RandomSampler;
  rs_after_trial :
    Study → FrozenTrial → TrialState → option (list Q) → RandomSampler → RandomSampler;
}.

Section Model.

Context `{E : Externals}.

(** ** The world and the monad *)

(** What the trace records: each invocation of a strategy by the sampler and
    each call of the user's constraints function. *)
Inductive Event :=
| EvElite (pool : list FrozenTrial)
| EvChild (search_space : gmap string Distribution) (parents : list FrozenTrial)
| EvAfterTrial (trial : FrozenTrial) (st : TrialState)
| EvConstraints (trial : FrozenTrial).

(** [rng] is the one generator object [self._rng], shared by the sampler and
    its default child generation strategy; [random_sampler] is
    [self._random_sampler]; [urandom] is the operating system's entropy, read
    chunk by chunk from position [urandom_pos].  A chunk is all the data that
    one expression takes from the operating system: for [self._rng.rng.seed()]
    it covers building the generator, when the lazy wrapper has not built it
    yet, and seeding it. *)
Record World := mkWorld {
  storage : gmap Z FrozenTrial;
  rng : RandomState;
  random_sampler : RandomSampler;
  urandom : nat → Z;
  urandom_pos : nat;
  trace : list Event;
}.

Definition M (A : Type) : Type := World → Result A * World.

#[global] Instance M_ret : MRet M := λ A a w, (Ok a, w).

#[global] Instance M_bind : MBind M := λ A B k m w,
  match m w with
  | (Ok a, w') => k a w'
  | (Raise e, w') => (Raise e, w')
  end.

Definition raise {A} (e : Exn) : M A := λ w, (Raise e, w).

Definition log (e : Event) : M unit := λ w,
  (Ok tt, mkWorld (storage w) (rng w) (random_sampler w)
                  (urandom w) (urandom_pos w) (trace w ++ [e])).

Definition read_entropy : M Z := λ w,
  (Ok (urandom w (urandom_pos w)),
   mkWorld (storage w) (rng w) (random_sampler w)
           (urandom w) (S (urandom_pos w)) (trace w)).

Definition set_rng (r : RandomState) : M unit := λ w,
  (Ok tt, mkWorld (storage w) r (random_sampler w)
                  (urandom w) (urandom_pos w) (trace w)).

Definition set_random_sampler (s : RandomSampler) : M unit := λ w,
  (Ok tt, mkWorld (storage w) (rng w) s
                  (urandom w) (urandom_pos w) (trace w)).

Definition update_random_sampler (f : RandomSampler → RandomSampler) : M unit :=
  λ w, set_random_sampler (f (random_sampler w)) w.

Definition set_storage (s : gmap Z FrozenTrial) : M unit := λ w,
  (Ok tt, mkWorld s (rng w) (random_sampler w)
                  (urandom w) (urandom_pos w) (trace w)).

(** A draw from the shared generator. *)
Definition with_rng {A} (f : RandomState → A * RandomState) : M A := λ w,
  let '(a, r) := f (rng w) in
  (Ok a, mkWorld (storage w) r (random_sampler w)
                 (urandom w) (urandom_pos w) (trace w)).

(** The generator after [n] draws, and the first [n] draws. *)
Definition advance (n : nat) (r : RandomState) : RandomState :=
  Nat.iter n (λ r', (rng_rand r').2) r.

Fixpoint draws (n : nat) (r : RandomState) : list Q :=
  match n with
  | O => []
  | S n' => (rng_rand r).1 :: draws n' (rng_rand r).2
  end.

Definition EliteStrategy : Type := Study → list FrozenTrial → M (list FrozenTrial).
Definition ChildStrategy : Type :=
  Study → gmap string Distribution → list FrozenTrial → M (gmap string ParamValue).
Definition AfterTrialStrategy : Type :=
  Study → FrozenTrial → TrialState → option (list Q) → M unit.
Definition ConstraintsFunc : Type := FrozenTrial → Result (list Q).

(** The crossover operator plugin: [n_parents] and the operator itself,
    [crossover(parents, search_space, rng, swapping_prob)]. *)
Record BaseCrossover := mkCrossover {
  n_parents : Z;
  crossover :
    list FrozenTrial → gmap string Distribution → RandomState → Q →
    gmap string ParamValue * RandomState;
}.

(** ** Default strategies *)

(** Modelled from the spec: the callable of
    [NSGAIIElitePopulationSelectionStrategy], built by [__init__] from
    [population_size] and [constraints_func]; its code is not in
    [_sampler.py].  Constraints are enabled when a constraints function is
    configured. *)
Definition NSGAIIElitePopulationSelectionStrategy (population_size : Z)
    (constraints_func : option ConstraintsFunc) : EliteStrategy :=
  λ study population,
    mret (select (bool_decide (is_Some constraints_func)) (directions study)
                 population (Z.to_nat population_size)).

Record NSGAIIChildGenerationStrategy := mkChildGeneration {
  cg_crossover_prob : Q;
  cg_mutation_prob : option Q;
  cg_swapping_prob : Q;
  cg_crossover : BaseCrossover;
}.

(** Modelled from the spec: the range [0,1] of [crossover_prob] and
    [swapping_prob]. *)
Definition in_unit_interval (p : Q) : bool := Qle_bool 0 p && Qle_bool p 1.

(** Modelled from the spec: [mutation_prob] is in (0,1] or unset. *)
Definition valid_mutation_prob (p : option Q) : bool :=
  match p with
  | None => true
  | Some q => Qlt_bool 0 q && Qle_bool q 1
  end.

(** Modelled from the spec: the constructor of
    [NSGAIIChildGenerationStrategy], whose code is not in [_sampler.py]; it is
    where the three probabilities are validated: [mutation_prob] in (0,1] or
    unset, [crossover_prob] and [swapping_prob] in [0,1]. *)
Definition NSGAIIChildGenerationStrategy__init__ (crossover_prob : Q)
    (mutation_prob : option Q) (swapping_prob : Q) (crossover : BaseCrossover)
    : Result NSGAIIChildGenerationStrategy :=
  if valid_mutation_prob mutation_prob
     && in_unit_interval crossover_prob && in_unit_interval swapping_prob
  then Ok (mkChildGeneration crossover_prob mutation_prob swapping_prob crossover)
  else Raise ValueError.

(** Modelled from the spec: the mutation probability of the child generation
    strategy, [1/len(search_space)] when [mutation_prob] is unset.  Over an
    empty search space the quotient is not defined (it is 0 in [Q]) and not
    used either, as the mutation pass then makes no draw. *)
Definition effective_mutation_prob (cg : NSGAIIChildGenerationStrategy)
    (search_space : gmap string Distribution) : Q :=
  match cg_mutation_prob cg with
  | Some p => p
  | None => (1 / inject_Z (Z.of_nat (size search_space)))%Q
  end.

(** Modelled from the spec: the parents that carry every parameter of the
    search space. *)
Definition eligible (search_space : gmap string Distribution)
    (parents : list FrozenTrial) : list FrozenTrial :=
  List.filter (λ p, bool_decide (dom search_space ⊆ dom (params p))) parents.

(** Modelled from the spec: [n] distinct members of [pool], drawn uniformly
    without replacement. *)
Fixpoint choose_distinct (n : nat) (pool : list FrozenTrial) (r : RandomState)
    : list FrozenTrial * RandomState :=
  match n with
  | O => ([], r)
  | S n' =>
      let '(i, r1) := rng_choice (length pool) r in
      match pool !! i with
      | Some p =>
          let '(ps, r2) := choose_distinct n' (delete i pool) r1 in
          (p :: ps, r2)
      | None => ([], r1)
      end
  end.

(** Modelled from the spec: the crossover-or-copy step of the child
    generation strategy.  With probability [crossover_prob] the crossover
    operator is applied to [n_parents] distinct eligible parents; otherwise
    one parent is picked and its values are copied for the names of the
    search space. *)
Definition recombine (cg : NSGAIIChildGenerationStrategy)
    (search_space : gmap string Distribution) (parents : list FrozenTrial)
    : M (gmap string ParamValue) :=
  u ← with_rng rng_rand;
  if Qlt_bool u (cg_crossover_prob cg) then
    chosen ← with_rng (choose_distinct (Z.to_nat (n_parents (cg_crossover cg)))
                                       (eligible search_space parents));
    with_rng (λ r, crossover (cg_crossover cg) chosen search_space r
                             (cg_swapping_prob cg))
  else
    i ← with_rng (rng_choice (length parents));
    mret (match parents !! i with
          | Some p => filter (λ kv, kv.1 ∈ dom search_space) (params p)
          | None => ∅
          end).

(** Modelled from the spec: the mutation pass of the child generation
    strategy.  One draw per name of the search space; a name whose draw falls
    under [p] loses its crossover/copy value and is left to independent
    sampling, as is a name the child does not carry. *)
Fixpoint mutation_pass (p : Q) (names : list string)
    (child : gmap string ParamValue) (r : RandomState)
    : gmap string ParamValue * RandomState :=
  match names with
  | [] => (∅, r)
  | name :: names' =>
      let '(u, r1) := rng_rand r in
      let '(kept, r2) := mutation_pass p names' child r1 in
      (if Qlt_bool u p then kept
       else match child !! name with
            | Some v => <[name := v]> kept
            | None => kept
            end, r2)
  end.

(** Modelled from the spec: [generate(parents, search_space)] of the child
    generation strategy (the callable of [NSGAIIChildGenerationStrategy]). *)
Definition NSGAIIChildGenerationStrategy__call__
    (cg : NSGAIIChildGenerationStrategy) : ChildStrategy :=
  λ study search_space parents,
    child ← recombine cg search_space parents;
    with_rng (mutation_pass (effective_mutation_prob cg search_space)
                            (map_to_list search_space).*1 child).

(** Modelled from the spec: the constraint values overwrite those of the
    stored trial. *)
Definition with_constraints (cs : list Q) (t : FrozenTrial) : FrozenTrial :=
  mkTrial (number t) (state t) (params t) (values t) (Some cs).

Definition update_storage (f : gmap Z FrozenTrial → gmap Z FrozenTrial) : M unit :=
  λ w, set_storage (f (storage w)) w.

Definition set_trial_constraints (id : Z) (cs : list Q) : M unit :=
  update_storage (alter (with_constraints cs) id).

(** Modelled from the spec: [record(trial, state, objective_values)] of the
    after-trial strategy (the callable of [NSGAIIAfterTrialStrategy], whose
    code is not in [_sampler.py]).  Constraints are recorded for a complete
    trial when a constraints function is configured; a failure of that
    function propagates. *)
Definition NSGAIIAfterTrialStrategy (constraints_func : option ConstraintsFunc)
    : AfterTrialStrategy :=
  λ study trial st values,
    match st, constraints_func with
    | COMPLETE, Some f =>
        log (EvConstraints trial);;
        match f trial with
        | Ok cs => set_trial_constraints (number trial) cs
        | Raise e => raise e
        end
    | _, _ => mret tt
    end.

(** ** The sampler *)

(** The [crossover] argument of [__init__]: [None], a [BaseCrossover], or an
    object of another class. *)
Inductive CrossoverArg :=
| CrossoverNone
| CrossoverObject (c : BaseCrossover)
| NotACrossover.

Record Config := mkConfig {
  population_size : Z;
  mutation_prob : option Q;
  crossover_arg : CrossoverArg;
  crossover_prob : Q;
  swapping_prob : Q;
  seed : option Z;
  constraints_func : option ConstraintsFunc;
  elite_population_selection_strategy : option EliteStrategy;
  child_generation_strategy : option ChildStrategy;
  after_trial_strategy : option AfterTrialStrategy;
}.

(** The sampler object after [__init__]: its configuration and the three
    strategies.  The generator [_rng] and the bootstrap sampler
    [_random_sampler] are mutable objects and live in the [World]. *)
Record NSGAIISampler := mkSampler {
  _population_size : Z;
  _constraints_func : option ConstraintsFunc;
  _elite_population_selection_strategy : EliteStrategy;
  _child_generation_strategy : ChildStrategy;
  _after_trial_strategy : AfterTrialStrategy;
}.

(** Modelled from the spec: the [UniformCrossover] object, whose class is not
    in [_sampler.py]: a crossover plugin with [n_parents = 2] (the sampler's
    docstring, lines 72 to 74) and the uniform operator taken at its
    interface. *)
Definition UniformCrossover (swapping_prob : Q) : BaseCrossover :=
  mkCrossover 2 (uniform_crossover swapping_prob).

(** Modelled from the spec: the constructor [UniformCrossover(swapping_prob)],
    which requires [swapping_prob] in [0,1] and raises [ValueError]
    otherwise. *)
Definition UniformCrossover__init__ (swapping_prob : Q) : Result BaseCrossover :=
  if in_unit_interval swapping_prob then Ok (UniformCrossover swapping_prob)
  else Raise ValueError.

(** The seeds that [numpy.random.RandomState] accepts: 0 to 2^32 - 1. *)
Definition valid_seed (z : Z) : bool := (0 <=? z) && (z <? 4294967296).

(** The generator behind [RandomSampler(seed=seed)] and
    [LazyRandomState(seed)].  With a seed it is seeded at once, and a seed
    outside numpy's range raises [ValueError].  Without one the lazy wrapper
    builds the generator at its first use, from entropy that nothing else
    observes; the model hands that entropy over at construction. *)
Definition new_random_state (seed : option Z) : M RandomState :=
  match seed with
  | Some z =>
      if valid_seed z then mret (rng_seed_int z) else raise ValueError
  | None => e ← read_entropy; mret (rng_seed_entropy e)
  end.

Definition lift_result {A} (r : Result A) : M A :=
  match r with
  | Ok a => mret a
  | Raise e => raise e
  end.

(** The crossover after lines 193 to 201: the [None] default is filled in
    by [UniformCrossover(swapping_prob)], whose constructor may raise, and the
    result must be an instance of [BaseCrossover].  Both failures are a
    [ValueError], and there is no crossover then. *)
Definition resolved_crossover (cfg : Config) : option BaseCrossover :=
  match crossover_arg cfg with
  | CrossoverNone =>
      match UniformCrossover__init__ (swapping_prob cfg) with
      | Ok c => Some c
      | Raise _ => None
      end
  | CrossoverObject c => Some c
  | NotACrossover => None
  end.

(** [NSGAIISampler.__init__].  The experimental-argument warnings do not
    change the control flow and are left out; [super().__init__] keeps
    [population_size], here the field [_population_size].  [x or default]
    picks the default exactly when no strategy is supplied. *)
Definition NSGAIISampler__init__ (cfg : Config) : M NSGAIISampler :=
  if population_size cfg <? 2 then raise ValueError
  else
    match resolved_crossover cfg with
    | None => raise ValueError
    | Some crossover =>
        if population_size cfg <? n_parents crossover then raise ValueError
        else
          r ← new_random_state (seed cfg);
          set_random_sampler (rs_init r);;
          r' ← new_random_state (seed cfg);
          set_rng r';;
          let elite :=
            match elite_population_selection_strategy cfg with
            | Some s => s
            | None => NSGAIIElitePopulationSelectionStrategy
                        (population_size cfg) (constraints_func cfg)
            end in
          child ←
            match child_generation_strategy cfg with
            | Some s => mret s
            | None =>
                cg ← lift_result (NSGAIIChildGenerationStrategy__init__
                        (crossover_prob cfg) (mutation_prob cfg)
                        (swapping_prob cfg) crossover);
                mret (NSGAIIChildGenerationStrategy__call__ cg)
            end;
          let after :=
            match after_trial_strategy cfg with
            | Some s => s
            | None => NSGAIIAfterTrialStrategy (constraints_func cfg)
            end in
          mret (mkSampler (population_size cfg) (constraints_func cfg)
                          elite child after)
    end.

(** The methods inherited from [BaseGASampler], whose code is not in
    [_sampler.py]. *)
Class BaseGASampler := {
  get_trial_generation : Study → FrozenTrial → M Z;
  get_population : Study → Z → M (list FrozenTrial);
  get_parent_population : Study → Z → M (list FrozenTrial);
}.

(** [IntersectionSearchSpace.calculate], an external collaborator. *)
Class IntersectionSearchSpace := {
  calculate : Study → M (gmap string Distribution);
}.

Context `{B : BaseGASampler} `{ISS : IntersectionSearchSpace}.

Definition RandomSampler_reseed_rng : M unit :=
  e ← read_entropy;
  update_random_sampler (rs_reseed_rng e).

(** [NSGAIISampler.reseed_rng]: the bootstrap sampler's [reseed_rng], then
    [self._rng.rng.seed()], each taking its data from the operating
    system. *)
Definition reseed_rng (self : NSGAIISampler) : M unit :=
  RandomSampler_reseed_rng;;
  e ← read_entropy;
  set_rng (rng_seed_entropy e).

(** [NSGAIISampler.infer_relative_search_space]. *)
Definition infer_relative_search_space (self : NSGAIISampler) (study : Study)
    (trial : FrozenTrial) : M (gmap string Distribution) :=
  space ← calculate study;
  mret (map_fold (λ name distribution search_space,
                    if single distribution then search_space
                    else <[name := distribution]> search_space)
                 ∅ space).

(** [NSGAIISampler.select_parent]. *)
Definition select_parent (self : NSGAIISampler) (study : Study)
    (generation : Z) : M (list FrozenTrial) :=
  population ← get_population study (generation - 1);
  parents ← get_parent_population study (generation - 1);
  log (EvElite (population ++ parents));;
  _elite_population_selection_strategy self study (population ++ parents).

(** [NSGAIISampler.sample_relative]. *)
Definition sample_relative (self : NSGAIISampler) (study : Study)
    (trial : FrozenTrial) (search_space : gmap string Distribution)
    : M (gmap string ParamValue) :=
  generation ← get_trial_generation study trial;
  parent_population ← get_parent_population study generation;
  if bool_decide (length parent_population = 0%nat) then mret ∅
  else
    log (EvChild search_space parent_population);;
    _child_generation_strategy self study search_space parent_population.

Definition RandomSampler_after_trial (study : Study) (trial : FrozenTrial)
    (st : TrialState) (values : option (list Q)) : M unit :=
  update_random_sampler (rs_after_trial study trial st values).

(** [NSGAIISampler.after_trial]. *)
Definition after_trial (self : NSGAIISampler) (study : Study)
    (trial : FrozenTrial) (st : TrialState) (values : option (list Q)) : M unit :=
  if bool_decide (st ∈ [COMPLETE; FAIL; PRUNED]) then
    log (EvAfterTrial trial st);;
    _after_trial_strategy self study trial st values;;
    RandomSampler_after_trial study trial st values
  else raise AssertionError.

(** The two other methods of the bootstrap [RandomSampler] that the sampler
    forwards to; like [rs_after_trial] they act on the bootstrap sampler's own
    state. *)
Class BootstrapSampling := {
  rs_sample_independent :
    Study → FrozenTrial → string → Distribution → RandomSampler →
    ParamValue * RandomSampler;
  rs_before_trial : Study → FrozenTrial → RandomSampler → RandomSampler;
}.

Context `{BS : BootstrapSampling}.

(** [NSGAIISampler.sample_independent]. *)
Definition sample_independent (self : NSGAIISampler) (study : Study)
    (trial : FrozenTrial) (param_name : string)
    (param_distribution : Distribution) : M ParamValue := λ w,
  let '(v, s) := rs_sample_independent study trial param_name
                   param_distribution (random_sampler w) in
  (Ok v, (set_random_sampler s w).2).

(** [NSGAIISampler.before_trial]. *)
Definition before_trial (self : NSGAIISampler) (study : Study)
    (trial : FrozenTrial) : M unit :=
  update_random_sampler (rs_before_trial study trial).

End Model.

(** ** Concrete collaborators, for evaluating the model *)

Definition lcg_modulus : Z := 16.

Definition lcg_next (s : Z) : Z := (s * 5 + 3) mod lcg_modulus.

(** A linear congruential generator stands in for numpy's, categorical
    choice lists for the distributions, and a bare generator state for the
    bootstrap sampler. *)
#[global] Instance lcg_externals : Externals := {|
  Distribution := list Z;
  single := λ choices, bool_decide (length choices = 1%nat);
  RandomState := Z;
  rng_seed_int := λ z, z mod lcg_modulus;
  rng_seed_entropy := λ e, e mod lcg_modulus;
  rng_rand := λ s, (Qmake s (Z.to_pos lcg_modulus), lcg_next s);
  rng_choice := λ n s, (Z.to_nat (s mod Z.of_nat n), lcg_next s);
  uniform_crossover := λ _ parents _ r _,
    (match parents with p :: _ => params p | [] => ∅ end, lcg_next r);
  RandomSampler := Z;
  rs_init := λ r, r;
  rs_reseed_rng := λ e _, e mod lcg_modulus;
  rs_after_trial := λ _ _ _ _ s, s;
|}.

#[global] Instance lcg_bootstrap : BootstrapSampling := {|
  rs_sample_independent := λ _ _ _ choices s,
    (PInt (nth (Z.to_nat s) choices 0), lcg_next s);
  rs_before_trial := λ _ _ s, lcg_next s;
|}.

Definition evaluated (n : Z) (vs : list Q) (cs : option (list Q)) : FrozenTrial :=
  mkTrial n COMPLETE ∅ (Some vs) cs.

Definition example_trials : list FrozenTrial :=
  [evaluated 0 [1; 4]%Q None; evaluated 1 [2; 3]%Q None;
   evaluated 2 [3; 2]%Q None; evaluated 3 [4; 1]%Q None;
   evaluated 4 [4; 4]%Q None; evaluated 5 [5; 5]%Q None].

(** Generations of two trials each, read from the store; the parent
    population of generation 0 is empty and that of a later generation is the
    first trial of the store. *)
#[global] Instance example_base : BaseGASampler := {|
  get_trial_generation := λ _ trial, mret (number trial / 2);
  get_population := λ _ g w,
    (Ok (List.filter (λ t, number t / 2 =? g) (map_to_list (storage w)).*2), w);
  get_parent_population := λ _ g w,
    (Ok (if g <=? 0 then [] else take 1 (map_to_list (storage w)).*2), w);
|}.

Definition example_search_space_value : gmap string (list Z) :=
  <["x" := [1; 2; 3]]> (<["y" := [7]]> ∅).

#[global] Instance example_search_space : IntersectionSearchSpace := {|
  calculate := λ _ w, (Ok example_search_space_value, w);
|}.

Definition example_study : Study := mkStudy [MINIMIZE; MINIMIZE].

Definition example_world : World :=
  mkWorld (list_to_map ((λ t, (number t, t)) <$> example_trials))
          1 2 (λ n, Z.of_nat n + 17) 0 [].

Definition example_sampler : NSGAIISampler :=
  mkSampler 4 None (NSGAIIElitePopulationSelectionStrategy 4 None)
            (λ _ _ _, mret ∅) (NSGAIIAfterTrialStrategy None).

Definition example_population : list FrozenTrial :=
  [evaluated 3 [4; 1]%Q None; evaluated 2 [3; 2]%Q None].

Definition example_parents : list FrozenTrial := [evaluated 5 [5; 5]%Q None].

Definition example_config : Config :=
  mkConfig 4 None CrossoverNone (9 # 10) (1 # 2) (Some 42) None None None None.

Definition example_built : Result NSGAIISampler * World :=
  NSGAIISampler__init__ example_config example_world.

Definition built_sampler : NSGAIISampler :=
  match example_built.1 with
  | Ok self => self
  | Raise _ => example_sampler
  end.


(** The example world with other entropy, and with other generator states. *)
Definition other_entropy_world : World :=
  mkWorld (storage example_world) 1 2 (λ n, Z.of_nat n + 18) 0 [].

Definition other_state_world : World :=
  mkWorld ∅ 7 9 (λ n, Z.of_nat n + 17) 0 [].

Definition example_recombined : Result (gmap string ParamValue) * World :=
  recombine (mkChildGeneration (9 # 10) None (1 # 2) (UniformCrossover (1 # 2)))
            example_search_space_value example_parents example_world.

Definition example_child : gmap string ParamValue :=
  match example_recombined.1 with
  | Ok child => child
  | Raise _ => ∅
  end.

(** Collaborators that fail: every inherited method and the intersection
    search space raise. *)
Definition failing_base : BaseGASampler := {|
  get_trial_generation := λ _ _, raise UserError;
  get_population := λ _ _, raise UserError;
  get_parent_population := λ _ _, raise UserError;
|}.

Definition failing_search_space : IntersectionSearchSpace := {|
  calculate := λ _, raise UserError;
|}.

(** An intersection search space that shrinks once the trace is not empty:
    first the example's, then the example's without its single-valued
    parameter. *)
Definition staged_search_space : IntersectionSearchSpace := {|
  calculate := λ _ w,
    (Ok (match trace w with
         | [] => example_search_space_value
         | _ => <["x" := [1; 2; 3]]> ∅
         end), w);
|}.

Definition traced_world : World :=
  mkWorld (storage example_world) 1 2 (λ n, Z.of_nat n + 17) 0
          [EvElite []].

(** A sampler whose after-trial strategy raises. *)
Definition failing_after_sampler : NSGAIISampler :=
  mkSampler 4 None (NSGAIIElitePopulationSelectionStrategy 4 None)
            (λ _ _ _, mret ∅) (λ _ _ _ _, raise UserError).

(** The configuration of the example with seed 42 spelled out and custom
    strategies supplied. *)
Definition custom_config : Config :=
  mkConfig 4 (Some 5%Q) CrossoverNone (9 # 10) (1 # 2) (Some 42) None
           (Some (λ _ pool, mret (take 1 pool)))
           (Some (λ _ _ _, mret ∅))
           (Some (λ _ _ _ _, mret tt)).

Definition custom_built : Result NSGAIISampler * World :=
  NSGAIISampler__init__ custom_config example_world.

Definition custom_sampler : NSGAIISampler :=
  match custom_built.1 with
  | Ok self => self
  | Raise _ => example_sampler
  end.





Definition bad_swapping_config : Config :=
  mkConfig 50 None CrossoverNone (9 # 10) 2 None None None
           (Some (λ _ _ _, mret ∅)) None.

Definition bad_seed_config : Config :=
  mkConfig 50 None CrossoverNone (9 # 10) (1 # 2) (Some 4294967296) None None
           (Some (λ _ _ _, mret ∅)) None.

(** A configuration with a constraints function, which reports one violated
    constraint for every trial, and the sampler built from it. *)
Definition violated : ConstraintsFunc := λ _, Ok [1 # 10]%Q.

Definition constrained_config : Config :=
  mkConfig 4 None CrossoverNone (9 # 10) (1 # 2) (Some 42) (Some violated)
           None None None.

Definition constrained_built : Result NSGAIISampler * World :=
  NSGAIISampler__init__ constrained_config example_world.

Definition constrained_sampler : NSGAIISampler :=
  match constrained_built.1 with
  | Ok self => self
  | Raise _ => example_sampler
  end.

(** * Properties *)

(** Case analysis on the seed of a construction: valid, out of range, or
    absent. *)
Ltac init_seed cfg :=
  unfold mbind, M_bind, new_random_state;
  let z := fresh "z" in
  destruct (seed cfg) as [z |] eqn:?Hseed;
    [destruct (valid_seed z) eqn:?Hvalid |]; simpl.


(** ** The domination comparator *)

Lemma Qlt_bool_iff (x y : Q) : Qlt_bool x y = true ↔ (x < y)%Q.
Proof.
  unfold Qlt_bool. rewrite negb_true_iff, <- not_true_iff_false, Qle_bool_iff.
  split; [apply Qnot_le_lt | apply Qlt_not_le].
Qed.

Lemma Qlt_bool_irrefl (x : Q) : Qlt_bool x x = false.
Proof.
  apply not_true_iff_false. rewrite Qlt_bool_iff. apply Qlt_irrefl.
Qed.

Lemma Qlt_bool_asym (x y : Q) : Qlt_bool x y = true → Qlt_bool y x = false.
Proof.
  intros Hxy. apply not_true_iff_false. rewrite Qlt_bool_iff in *. lra.
Qed.

Lemma Qlt_bool_trans (x y z : Q) :
  Qlt_bool x y = true → Qlt_bool y z = true → Qlt_bool x z = true.
Proof. rewrite !Qlt_bool_iff. lra. Qed.

Lemma strictly_better_irrefl (xs : list Q) : strictly_better xs xs = false.
Proof.
  induction xs as [| x xs IH]; [reflexivity |].
  simpl. by rewrite Qlt_bool_irrefl, IH.
Qed.

Lemma no_worse_not_better (xs ys : list Q) :
  no_worse xs ys = true → strictly_better ys xs = false.
Proof.
  revert ys. induction xs as [| x xs IH]; intros [| y ys]; simpl; try done.
  intros [Hle Hrest]%andb_true_iff.
  unfold Qlt_bool. rewrite Hle. simpl. by apply IH.
Qed.

Lemma no_worse_trans (xs ys zs : list Q) :
  no_worse xs ys = true → no_worse ys zs = true → no_worse xs zs = true.
Proof.
  revert ys zs. induction xs as [| x xs IH]; intros [| y ys] [| z zs];
    simpl; try done.
  intros [Hxy Hr1]%andb_true_iff [Hyz Hr2]%andb_true_iff.
  apply andb_true_iff. split; [| by eapply IH].
  rewrite Qle_bool_iff in *. lra.
Qed.

Lemma strictly_better_trans (xs ys zs : list Q) :
  no_worse xs ys = true → strictly_better xs ys = true →
  no_worse ys zs = true → strictly_better xs zs = true.
Proof.
  revert ys zs. induction xs as [| x xs IH]; intros [| y ys] [| z zs];
    simpl; try done.
  intros [Hxy Hr1]%andb_true_iff Hsb [Hyz Hr2]%andb_true_iff.
  apply orb_true_iff. apply orb_true_iff in Hsb as [Hlt | Hsb].
  - left. rewrite Qlt_bool_iff, Qle_bool_iff in *. lra.
  - right. by eapply IH.
Qed.

Lemma pareto_irrefl (ds : list StudyDirection) (a : FrozenTrial) :
  pareto_dominates ds a a = false.
Proof.
  unfold pareto_dominates. destruct (values a); [| done].
  simpl. rewrite strictly_better_irrefl. apply andb_false_r.
Qed.

Lemma pareto_asym (ds : list StudyDirection) (a b : FrozenTrial) :
  pareto_dominates ds a b = true → pareto_dominates ds b a = false.
Proof.
  unfold pareto_dominates. destruct (values a), (values b); try done.
  simpl. intros [Hnw _]%andb_true_iff.
  rewrite (no_worse_not_better _ _ Hnw). apply andb_false_r.
Qed.

Lemma pareto_trans (ds : list StudyDirection) (a b c : FrozenTrial) :
  pareto_dominates ds a b = true → pareto_dominates ds b c = true →
  pareto_dominates ds a c = true.
Proof.
  unfold pareto_dominates. destruct (values a), (values b), (values c); try done.
  simpl. intros [Hab Hsb]%andb_true_iff [Hbc _]%andb_true_iff.
  apply andb_true_iff. split.
  - by eapply no_worse_trans.
  - by eapply strictly_better_trans.
Qed.

Lemma dominates_irrefl (c : bool) (ds : list StudyDirection) (a : FrozenTrial) :
  dominates c ds a a = false.
Proof.
  unfold dominates. destruct c; [| apply pareto_irrefl].
  destruct (feasible a); [apply pareto_irrefl | apply Qlt_bool_irrefl].
Qed.

Lemma dominates_asym (c : bool) (ds : list StudyDirection) (a b : FrozenTrial) :
  dominates c ds a b = true → dominates c ds b a = false.
Proof.
  unfold dominates. destruct c; [| apply pareto_asym].
  destruct (feasible a), (feasible b); try done.
  - apply pareto_asym.
  - apply Qlt_bool_asym.
Qed.

Lemma dominates_trans (c : bool) (ds : list StudyDirection)
    (a b d : FrozenTrial) :
  dominates c ds a b = true → dominates c ds b d = true →
  dominates c ds a d = true.
Proof.
  unfold dominates. destruct c; [| apply pareto_trans].
  destruct (feasible a), (feasible b), (feasible d); try done.
  - apply pareto_trans.
  - apply Qlt_bool_trans.
Qed.

(** C4.  The constrained-domination comparator is a strict partial order:
    no candidate dominates itself, [dominates a b] and [dominates b a] never
    both hold, and domination is transitive; in particular, of two feasible
    candidates with distinct objective vectors either the first dominates the
    second only, or the second the first only, or neither dominates. *)
Theorem dominates_strict_partial_order (c : bool) (ds : list StudyDirection)
    (a b d : FrozenTrial) :
  dominates c ds a a = false
  ∧ ¬ (dominates c ds a b = true ∧ dominates c ds b a = true)
  ∧ (dominates c ds a b = true → dominates c ds b d = true →
     dominates c ds a d = true)
  ∧ (feasible a = true → feasible b = true → values a ≠ values b →
     (dominates c ds a b = true ∧ dominates c ds b a = false)
     ∨ (dominates c ds a b = false ∧ dominates c ds b a = true)
     ∨ (dominates c ds a b = false ∧ dominates c ds b a = false)).
Proof.
  split; [apply dominates_irrefl |]. split; [| split].
  - intros [Hab Hba]. apply dominates_asym in Hab. congruence.
  - apply dominates_trans.
  - intros _ _ _. destruct (dominates c ds a b) eqn:Hab.
    + left. split; [done |]. by apply dominates_asym.
    + destruct (dominates c ds b a); auto.
Qed.

(** ** The elite population selector *)

Section SelectionProperties.

Variable is_constrained : bool.
Variable ds : list StudyDirection.

Lemma filter_split {A} (f : A → bool) (l : list A) :
  List.filter (λ x, negb (f x)) l ++ List.filter f l ≡ₚ l.
Proof.
  induction l as [| x l IH]; [done |].
  simpl. destruct (f x); simpl.
  - rewrite <- Permutation_middle. by constructor.
  - by constructor.
Qed.

Lemma front_settle (pool : list FrozenTrial) :
  front_of is_constrained ds pool ++ settle is_constrained ds pool ≡ₚ pool.
Proof. apply filter_split. Qed.

(** A non-empty pool has a member that no member dominates. *)
Lemma exists_nondominated (pool : list FrozenTrial) :
  pool ≠ [] →
  ∃ m, In m pool ∧ ∀ x, In x pool → dominates is_constrained ds x m = false.
Proof.
  induction pool as [| a l IH]; [done |]. intros _.
  destruct l as [| b l'].
  - exists a. split; [by left |].
    intros x [<- | []]. apply dominates_irrefl.
  - destruct IH as (m & Hm & Hmin); [done |].
    destruct (dominates is_constrained ds a m) eqn:Ham.
    + exists a. split; [by left |].
      intros x [<- | Hx]; [apply dominates_irrefl |].
      destruct (dominates is_constrained ds x a) eqn:Hxa; [| done].
      rewrite <- (Hmin x Hx). symmetry. by eapply dominates_trans.
    + exists m. split; [by right |].
      intros x [<- | Hx]; [done | by apply Hmin].
Qed.

Lemma front_nonempty (pool : list FrozenTrial) :
  pool ≠ [] → front_of is_constrained ds pool ≠ [].
Proof.
  intros Hne. destruct (exists_nondominated pool Hne) as (m & Hm & Hmin).
  assert (In m (front_of is_constrained ds pool)) as Hin.
  { apply List.filter_In. split; [done |]. apply negb_true_iff.
    apply not_true_iff_false. intros Hd. unfold is_dominated in Hd.
    apply existsb_exists in Hd as (x & Hx & Hdx).
    rewrite (Hmin x Hx) in Hdx. done. }
  intros Heq. by rewrite Heq in Hin.
Qed.

Lemma settle_shorter (pool : list FrozenTrial) :
  pool ≠ [] → (length (settle is_constrained ds pool) < length pool)%nat.
Proof.
  intros Hne. pose proof (front_nonempty pool Hne) as Hfront.
  pose proof (Permutation_length (front_settle pool)) as Hlen.
  rewrite length_app in Hlen.
  destruct (front_of is_constrained ds pool); [done | simpl in Hlen; lia].
Qed.

(** The fuel that [nondominated_sort] supplies is enough: the fronts
    partition the pool. *)
Lemma fronts_partition (fuel : nat) (pool : list FrozenTrial) :
  (length pool ≤ fuel)%nat →
  concat (fronts is_constrained ds fuel pool) ≡ₚ pool.
Proof.
  revert pool. induction fuel as [| fuel IH]; intros pool Hlen.
  - destruct pool; [done | simpl in Hlen; lia].
  - destruct pool as [| a l]; [done |].
    change (fronts is_constrained ds (S fuel) (a :: l))
      with (front_of is_constrained ds (a :: l)
            :: fronts is_constrained ds fuel (settle is_constrained ds (a :: l))).
    rewrite concat_cons, IH.
    + apply front_settle.
    + pose proof (settle_shorter (a :: l)) as Hs. simpl in *.
      specialize (Hs ltac:(done)). lia.
Qed.

Lemma nondominated_sort_partition (pool : list FrozenTrial) :
  concat (nondominated_sort is_constrained ds pool) ≡ₚ pool.
Proof. by apply fronts_partition. Qed.

Lemma snd_numbered {A} (f : nat → nat) (l : list A) :
  snd <$> imap (λ i c, (f i, c)) l = l.
Proof.
  revert f. induction l as [| x l IH]; intros f; [done |].
  simpl. f_equal. apply (IH (f ∘ S)).
Qed.

Lemma crowding_sort_perm (front : list FrozenTrial) :
  crowding_sort ds front ≡ₚ front.
Proof.
  unfold crowding_sort. rewrite merge_sort_Permutation.
  by rewrite (snd_numbered id).
Qed.

Lemma fill_length (target_size : nat) (fs : list (list FrozenTrial))
    (acc : list FrozenTrial) :
  (length acc ≤ target_size)%nat →
  (length (fill ds target_size acc fs) ≤ target_size)%nat.
Proof.
  revert acc. induction fs as [| f fs IH]; intros acc Hacc; [done |].
  simpl. destruct (Nat.leb_spec (length acc + length f) target_size).
  - apply IH. by rewrite length_app.
  - rewrite length_app, length_take. lia.
Qed.

Lemma fill_all (target_size : nat) (fs : list (list FrozenTrial))
    (acc : list FrozenTrial) :
  (length acc + length (concat fs) ≤ target_size)%nat →
  fill ds target_size acc fs = acc ++ concat fs.
Proof.
  revert acc. induction fs as [| f fs IH]; intros acc Hlen.
  - simpl. by rewrite app_nil_r.
  - simpl in *. rewrite length_app in Hlen.
    destruct (Nat.leb_spec (length acc + length f) target_size); [| lia].
    rewrite IH; [by rewrite <- app_assoc |].
    rewrite length_app. lia.
Qed.

Lemma fill_exact (target_size : nat) (fs : list (list FrozenTrial))
    (acc : list FrozenTrial) :
  (length acc ≤ target_size)%nat →
  (target_size ≤ length acc + length (concat fs))%nat →
  length (fill ds target_size acc fs) = target_size.
Proof.
  revert acc. induction fs as [| f fs IH]; intros acc Hacc Hlen.
  - simpl in *. lia.
  - simpl in *. rewrite length_app in Hlen.
    destruct (Nat.leb_spec (length acc + length f) target_size).
    + apply IH; rewrite length_app; lia.
    + rewrite length_app, length_take.
      rewrite (Permutation_length (crowding_sort_perm f)). lia.
Qed.

(** Once the pool holds at least [target_size] candidates, exactly
    [target_size] are selected. *)
Lemma select_exact (pool : list FrozenTrial) (target_size : nat) :
  (target_size ≤ length pool)%nat →
  length (select is_constrained ds pool target_size) = target_size.
Proof.
  intros Hlen. apply fill_exact; simpl; [lia |].
  by rewrite (Permutation_length (nondominated_sort_partition pool)).
Qed.

(** C5.  The elite population selector returns at most [target_size]
    candidates; when the pool holds at most [target_size] candidates it
    returns the entire pool (every candidate of the pool, each as often as in
    the pool); and an empty pool yields an empty result. *)
Theorem select_size (pool : list FrozenTrial) (target_size : nat) :
  (length (select is_constrained ds pool target_size) ≤ target_size)%nat
  ∧ ((length pool ≤ target_size)%nat →
     select is_constrained ds pool target_size ≡ₚ pool
     ∧ length (select is_constrained ds pool target_size) = length pool)
  ∧ select is_constrained ds [] target_size = [].
Proof.
  split; [| split].
  - apply fill_length. simpl. lia.
  - intros Hlen.
    assert (select is_constrained ds pool target_size ≡ₚ pool) as Hperm.
    { unfold select. rewrite fill_all.
      - apply nondominated_sort_partition.
      - simpl. by rewrite (Permutation_length (nondominated_sort_partition pool)). }
    split; [done | by apply Permutation_length].
  - reflexivity.
Qed.

End SelectionProperties.

Section Properties.

Context `{E : Externals} `{B : !BaseGASampler} `{ISS : !IntersectionSearchSpace}.

(** ** The orchestrator *)

(** C1.  The parent population that [select_parent] returns for generation
    [g] is what the elite population selection strategy returns on the
    concatenation of the population of generation [g - 1] and the parent
    population of generation [g - 1]; the strategy is invoked on that pool
    (the trace records it), which always contains those parents and so
    differs from the population alone whenever there are any. *)
Theorem select_parent_pool (self : NSGAIISampler) (study : Study) (g : Z)
    (w w1 w2 : World) (population parents : list FrozenTrial) :
  get_population study (g - 1) w = (Ok population, w1) →
  get_parent_population study (g - 1) w1 = (Ok parents, w2) →
  select_parent self study g w
  = _elite_population_selection_strategy self study (population ++ parents)
      (log (EvElite (population ++ parents)) w2).2
  ∧ trace (log (EvElite (population ++ parents)) w2).2
    = trace w2 ++ [EvElite (population ++ parents)]
  ∧ (∀ t, t ∈ parents → t ∈ population ++ parents)
  ∧ (parents ≠ [] → population ++ parents ≠ population).
Proof.
  intros Hpop Hpar. repeat split.
  - unfold select_parent, mbind, M_bind. rewrite Hpop, Hpar. reflexivity.
  - intros t Ht. apply elem_of_app. by right.
  - intros Hne Heq. apply Hne.
    apply (f_equal length) in Heq. rewrite length_app in Heq.
    destruct parents; [done | simpl in Heq; lia].
Qed.

(** C2.  When the parent population fetched for the trial's generation is
    empty, [sample_relative] returns the empty mapping, normally, in the world
    left by the fetch: the child generation strategy is not invoked.
    Otherwise it returns what the child generation strategy returns on that
    parent population. *)
Theorem sample_relative_parents (self : NSGAIISampler) (study : Study)
    (trial : FrozenTrial) (search_space : gmap string Distribution)
    (w w1 w2 : World) (g : Z) (parent_population : list FrozenTrial) :
  get_trial_generation study trial w = (Ok g, w1) →
  get_parent_population study g w1 = (Ok parent_population, w2) →
  (parent_population = [] →
     sample_relative self study trial search_space w = (Ok ∅, w2))
  ∧ (parent_population ≠ [] →
     sample_relative self study trial search_space w
     = _child_generation_strategy self study search_space parent_population
         (log (EvChild search_space parent_population) w2).2).
Proof.
  intros Hgen Hpar. unfold sample_relative, mbind, M_bind.
  rewrite Hgen, Hpar. split.
  - intros ->. reflexivity.
  - intros Hne. rewrite bool_decide_eq_false_2; [reflexivity |].
    destruct parent_population; [done | simpl; lia].
Qed.

(** C9.  [after_trial] asserts that the state is complete, failed or pruned:
    with any other state, that is running or waiting, the assertion fails and
    the world is left as it was, so no strategy has been called; with one of
    the three states the assertion passes and the method is the after-trial
    strategy followed by the bootstrap sampler's [after_trial]. *)
Theorem after_trial_assertion (self : NSGAIISampler) (study : Study)
    (trial : FrozenTrial) (st : TrialState) (vs : option (list Q)) (w : World) :
  (st ∉ [COMPLETE; FAIL; PRUNED] ↔ st = RUNNING ∨ st = WAITING)
  ∧ (st ∉ [COMPLETE; FAIL; PRUNED] →
     after_trial self study trial st vs w = (Raise AssertionError, w))
  ∧ (st ∈ [COMPLETE; FAIL; PRUNED] →
     after_trial self study trial st vs w
     = (log (EvAfterTrial trial st);;
        _after_trial_strategy self study trial st vs;;
        RandomSampler_after_trial study trial st vs) w).
Proof.
  repeat split.
  - intros Hn. destruct st; auto; exfalso; apply Hn;
      repeat constructor.
  - intros [-> | ->] Hin;
      repeat (apply elem_of_cons in Hin as [Hin | Hin]; [discriminate |]);
      by apply elem_of_nil in Hin.
  - intros Hn. unfold after_trial. by rewrite bool_decide_eq_false_2.
  - intros Hin. unfold after_trial. by rewrite bool_decide_eq_true_2.
Qed.

(** ** Construction *)

Lemma new_random_state_cases (sd : option Z) (w : World) :
  (∃ r w', new_random_state sd w = (Ok r, w')
           ∧ storage w' = storage w ∧ trace w' = trace w)
  ∨ new_random_state sd w = (Raise ValueError, w).
Proof.
  destruct sd as [z |]; simpl.
  - destruct (valid_seed z); [left | by right].
    eexists _, _. split; [reflexivity | done].
  - left. eexists _, _. split; [reflexivity | done].
Qed.

(** What a successful construction has checked and wired. *)
Lemma init_ok_inv (cfg : Config) (w w' : World) (self : NSGAIISampler) :
  NSGAIISampler__init__ cfg w = (Ok self, w') →
  2 ≤ population_size cfg
  ∧ (∃ c, resolved_crossover cfg = Some c
          ∧ n_parents c ≤ population_size cfg
          ∧ match child_generation_strategy cfg with
            | Some s => _child_generation_strategy self = s
            | None =>
                ∃ cg, NSGAIIChildGenerationStrategy__init__
                        (crossover_prob cfg) (mutation_prob cfg)
                        (swapping_prob cfg) c = Ok cg
                      ∧ _child_generation_strategy self
                        = NSGAIIChildGenerationStrategy__call__ cg
            end)
  ∧ _elite_population_selection_strategy self
    = match elite_population_selection_strategy cfg with
      | Some s => s
      | None => NSGAIIElitePopulationSelectionStrategy
                  (population_size cfg) (constraints_func cfg)
      end
  ∧ _after_trial_strategy self
    = match after_trial_strategy cfg with
      | Some s => s
      | None => NSGAIIAfterTrialStrategy (constraints_func cfg)
      end.
Proof.
  unfold NSGAIISampler__init__.
  destruct (Z.ltb_spec (population_size cfg) 2) as [? | Hpop]; [discriminate |].
  destruct (resolved_crossover cfg) as [c |]; [| discriminate].
  destruct (Z.ltb_spec (population_size cfg) (n_parents c)) as [? | Hn];
    [discriminate |].
  init_seed cfg; [| discriminate |].
  all: destruct (child_generation_strategy cfg) as [s |].
  all: try (simpl; intros [= <- <-]; split; [done |]; split; [| done];
            exists c; done).
  all: destruct (NSGAIIChildGenerationStrategy__init__ _ _ _ c) as [cg | e] eqn:Hcg;
      simpl; [| discriminate].
  all: intros [= <- <-]; split; [done |]; split; [| done].
  all: exists c; split; [done |]; split; [done |]; by exists cg.
Qed.

Lemma child_init_ok (cp : Q) (mp : option Q) (sp : Q) (c : BaseCrossover)
    (cg : NSGAIIChildGenerationStrategy) :
  NSGAIIChildGenerationStrategy__init__ cp mp sp c = Ok cg →
  valid_mutation_prob mp = true ∧ in_unit_interval cp = true
  ∧ in_unit_interval sp = true
  ∧ cg = mkChildGeneration cp mp sp c.
Proof.
  unfold NSGAIIChildGenerationStrategy__init__.
  destruct (valid_mutation_prob mp), (in_unit_interval cp), (in_unit_interval sp);
    simpl; intros [= <-]; done.
Qed.


(** ** After-trial recording *)

(** C6.  For a sampler constructed without a custom [after_trial_strategy],
    constraint values are recorded for complete trials only.  With a failed
    or pruned state [after_trial] returns normally, leaves the trial store as
    it was, and adds to the trace the invocation of the after-trial strategy
    alone: the configured constraints function is not called and nothing is
    recorded onto the trial.  With the complete state and a constraints
    function configured, that function is called on the trial and what it
    returns is written onto the stored trial. *)
Theorem after_trial_not_complete (cfg : Config) (w0 w0' : World)
    (self : NSGAIISampler) (study : Study) (trial : FrozenTrial)
    (vs : option (list Q)) (w : World) :
  NSGAIISampler__init__ cfg w0 = (Ok self, w0') →
  after_trial_strategy cfg = None →
  (∀ st, st = FAIL ∨ st = PRUNED →
     ∃ w', after_trial self study trial st vs w = (Ok tt, w')
           ∧ storage w' = storage w
           ∧ trace w' = trace w ++ [EvAfterTrial trial st]
           ∧ (∀ t, EvConstraints t ∈ trace w' → EvConstraints t ∈ trace w))
  ∧ (∀ f cs, constraints_func cfg = Some f → f trial = Ok cs →
     ∃ w', after_trial self study trial COMPLETE vs w = (Ok tt, w')
           ∧ storage w'
             = alter (with_constraints cs) (number trial) (storage w)
           ∧ trace w'
             = trace w ++ [EvAfterTrial trial COMPLETE; EvConstraints trial]).
Proof.
  intros Hok Hnone.
  destruct (init_ok_inv _ _ _ _ Hok) as (_ & _ & _ & Hafter).
  rewrite Hnone in Hafter.
  split.
  - intros st Hst. unfold after_trial. rewrite Hafter.
    eexists. split; [| split; [| split]].
    + destruct Hst as [-> | ->]; unfold mbind, M_bind; simpl; reflexivity.
    + reflexivity.
    + reflexivity.
    + intros t Hin. simpl in Hin.
      apply elem_of_app in Hin as [Hin | Hin]; [done |].
      apply elem_of_cons in Hin as [Hin | Hin]; [discriminate |].
      by apply elem_of_nil in Hin.
  - intros f cs Hf Hcs. unfold after_trial. rewrite Hafter, Hf.
    eexists. split; [| split].
    + unfold mbind, M_bind. simpl. unfold mbind, M_bind. simpl. rewrite Hcs.
      reflexivity.
    + reflexivity.
    + simpl. by rewrite <- app_assoc.
Qed.

(** The complete case, for contrast: the constraints function is called and
    its result is written onto the stored trial. *)
Lemma after_trial_complete (self : NSGAIISampler) (study : Study)
    (trial : FrozenTrial) (vs : option (list Q)) (w : World)
    (f : ConstraintsFunc) (cs : list Q) :
  _after_trial_strategy self = NSGAIIAfterTrialStrategy (Some f) →
  f trial = Ok cs →
  ∃ w', after_trial self study trial COMPLETE vs w = (Ok tt, w')
        ∧ storage w' = alter (with_constraints cs) (number trial) (storage w)
        ∧ trace w' = trace w ++ [EvAfterTrial trial COMPLETE; EvConstraints trial].
Proof.
  intros Hafter Hf. unfold after_trial. rewrite Hafter.
  eexists. split; [| split].
  - unfold mbind, M_bind. simpl. unfold mbind, M_bind. simpl. rewrite Hf.
    reflexivity.
  - reflexivity.
  - simpl. by rewrite <- app_assoc.
Qed.

(** ** Reseeding *)

(** C7, as amended.  [reseed_rng] reseeds the bootstrap sampler and then
    rebuilds the sampler's own generator from entropy read from the operating
    system.  The new state of that generator is a function of the entropy it
    read alone: two samplers whose reseeds read the same entropy draw the same
    values afterwards, whatever their generators, their bootstrap samplers and
    their stores were before. *)
Theorem reseed_rng_entropy (self1 self2 : NSGAIISampler) (w1 w2 : World) (n : nat) :
  urandom w1 (S (urandom_pos w1)) = urandom w2 (S (urandom_pos w2)) →
  (reseed_rng self1 w1).1 = Ok tt
  ∧ rng (reseed_rng self1 w1).2 = rng_seed_entropy (urandom w1 (S (urandom_pos w1)))
  ∧ random_sampler (reseed_rng self1 w1).2
    = rs_reseed_rng (urandom w1 (urandom_pos w1)) (random_sampler w1)
  ∧ rng (reseed_rng self1 w1).2 = rng (reseed_rng self2 w2).2
  ∧ draws n (rng (reseed_rng self1 w1).2) = draws n (rng (reseed_rng self2 w2).2).
Proof.
  intros Hent.
  assert (∀ self w, rng (reseed_rng self w).2
                    = rng_seed_entropy (urandom w (S (urandom_pos w)))) as Hrng
    by reflexivity.
  repeat split; rewrite ?Hrng, ?Hent; reflexivity.
Qed.

(** ** The relative search space *)

Lemma relative_fold_filter (space : gmap string Distribution) :
  map_fold (λ name distribution search_space,
              if single distribution then search_space
              else <[name := distribution]> search_space) ∅ space
  = filter (λ kv, single kv.2 = false) space.
Proof.
  apply (map_fold_weak_ind
           (λ r m, r = filter (λ kv : string * Distribution, single kv.2 = false) m)).
  - by rewrite map_filter_empty.
  - intros i x m r Hnone ->. destruct (single x) eqn:Hs.
    + rewrite map_filter_insert_False by (simpl; congruence).
      by rewrite delete_id.
    + by rewrite map_filter_insert_True.
Qed.

(** ** The mutation pass *)

Lemma mutation_pass_rng (p : Q) (names : list string)
    (child : gmap string ParamValue) (r : RandomState) :
  (mutation_pass p names child r).2 = advance (length names) r.
Proof.
  revert r. induction names as [| name names IH]; intros r; [reflexivity |].
  simpl. destruct (rng_rand r) as [u r1] eqn:Hr.
  specialize (IH r1). destruct (mutation_pass p names child r1) as [kept r2].
  simpl in *. rewrite IH. unfold advance.
  change (rng_rand (Nat.iter (length names) (λ r', (rng_rand r').2) r)).2
    with (Nat.iter (S (length names)) (λ r', (rng_rand r').2) r).
  rewrite Nat.iter_succ_r. by rewrite Hr.
Qed.

Lemma mutation_pass_lookup (p : Q) (names : list string)
    (child : gmap string ParamValue) (r : RandomState) (name : string)
    (v : ParamValue) :
  NoDup names →
  (mutation_pass p names child r).1 !! name = Some v
  ↔ ∃ i u, names !! i = Some name ∧ child !! name = Some v
           ∧ draws (length names) r !! i = Some u ∧ Qlt_bool u p = false.
Proof.
  revert r. induction names as [| name0 names IH]; intros r Hnd.
  - simpl. rewrite lookup_empty. split; [done |].
    intros (i & u & Hi & _). by rewrite lookup_nil in Hi.
  - apply NoDup_cons in Hnd as [Hnotin Hnd]. simpl.
    destruct (rng_rand r) as [u0 r1] eqn:Hr.
    specialize (IH r1 Hnd).
    destruct (mutation_pass p names child r1) as [kept r2]. simpl in *.
    split.
    + intros Hlook.
      assert (kept !! name = Some v
              ∨ (name = name0 ∧ child !! name = Some v ∧ Qlt_bool u0 p = false))
        as [Hkept | (-> & Hchild & Hu)].
      { destruct (Qlt_bool u0 p); [by left |].
        destruct (child !! name0) as [v0 |] eqn:Hc0; [| by left].
        destruct (decide (name0 = name)) as [-> | Hne].
        - rewrite lookup_insert_eq in Hlook. right. by simplify_eq.
        - rewrite lookup_insert_ne in Hlook by done. by left. }
      * apply IH in Hkept as (i & u & Hi & Hchild & Hd & Hu).
        exists (S i), u. done.
      * exists 0%nat, u0. done.
    + intros (i & u & Hi & Hchild & Hd & Hu). destruct i as [| i]; simpl in *.
      * simplify_eq. rewrite Hu, Hchild. by rewrite lookup_insert_eq.
      * assert (name ≠ name0) as Hne.
        { intros ->. apply Hnotin. by eapply list_elem_of_lookup_2. }
        assert (kept !! name = Some v) as Hkept.
        { apply IH. by exists i, u. }
        destruct (Qlt_bool u0 p); [done |].
        destruct (child !! name0); [| done].
        by rewrite lookup_insert_ne.
Qed.

(** C10.  [infer_relative_search_space] returns the intersection search
    space without its single-valued distributions: a name is in the result,
    with its distribution, exactly when it is in the intersection search space
    with a distribution that is not single, so a single-valued parameter is
    never part of the relative search space; and the default child generation
    strategy proposes values only for names of the search space it is given,
    which leaves such a parameter to independent sampling. *)
Theorem infer_relative_search_space_spec (self : NSGAIISampler) (study : Study)
    (trial : FrozenTrial) (w w1 : World) (space : gmap string Distribution) :
  calculate study w = (Ok space, w1) →
  ∃ result,
    infer_relative_search_space self study trial w = (Ok result, w1)
    ∧ result = filter (λ kv, single kv.2 = false) space
    ∧ (∀ name d, result !! name = Some d
                 ↔ space !! name = Some d ∧ single d = false)
    ∧ (∀ name d, space !! name = Some d → single d = true →
                 result !! name = None)
    ∧ (∀ p child r name,
         result !! name = None →
         (mutation_pass p (map_to_list result).*1 child r).1 !! name = None).
Proof.
  intros Hcalc. eexists. split; [| split; [| split; [| split]]].
  - unfold infer_relative_search_space, mbind, M_bind. rewrite Hcalc.
    reflexivity.
  - apply relative_fold_filter.
  - intros name d. rewrite relative_fold_filter.
    by rewrite map_lookup_filter_Some.
  - intros name d Hin Hs. rewrite relative_fold_filter.
    apply map_lookup_filter_None. right. intros d' Hd'. simpl.
    simplify_eq. by rewrite Hs.
  - intros p child r name. generalize (map_fold
      (λ name distribution (search_space : gmap string Distribution),
         if single distribution then search_space
         else <[name := distribution]> search_space) ∅ space).
    intros result Hnone.
    destruct ((mutation_pass p (map_to_list result).*1 child r).1 !! name)
      as [v |] eqn:Hlook; [| done].
    apply mutation_pass_lookup in Hlook
      as (i & u & Hi & _); [| apply NoDup_fst_map_to_list].
    rewrite list_lookup_fmap in Hi.
    destruct (map_to_list result !! i) as [[k d] |] eqn:Hkd; simplify_eq/=.
    apply list_elem_of_lookup_2, elem_of_map_to_list in Hkd. congruence.
Qed.

(** C8.  A sampler constructed without a custom child generation strategy
    and with [mutation_prob] unset mutates with probability 1 divided by the
    number of parameters of the search space the offspring is generated over:
    the mutation pass makes one draw per name of the search space, and a name
    keeps its crossover/copy value exactly when its draw is not under that
    probability. *)
Theorem default_mutation_prob (cfg : Config) (w0 w0' : World)
    (self : NSGAIISampler) (c : BaseCrossover) :
  NSGAIISampler__init__ cfg w0 = (Ok self, w0') →
  child_generation_strategy cfg = None →
  mutation_prob cfg = None →
  resolved_crossover cfg = Some c →
  let cg := mkChildGeneration (crossover_prob cfg) None (swapping_prob cfg) c in
    _child_generation_strategy self = NSGAIIChildGenerationStrategy__call__ cg
    ∧ ∀ (study : Study) (search_space : gmap string Distribution)
        (parents : list FrozenTrial) (w w1 : World)
        (child : gmap string ParamValue),
        recombine cg search_space parents w = (Ok child, w1) →
        effective_mutation_prob cg search_space
        = (1 / inject_Z (Z.of_nat (size search_space)))%Q
        ∧ ∃ result w2,
            _child_generation_strategy self study search_space parents w
            = (Ok result, w2)
            ∧ length (map_to_list search_space).*1 = size search_space
            ∧ rng w2 = advance (size search_space) (rng w1)
            ∧ ∀ name v,
                result !! name = Some v
                ↔ ∃ i u, (map_to_list search_space).*1 !! i = Some name
                         ∧ child !! name = Some v
                         ∧ draws (size search_space) (rng w1) !! i = Some u
                         ∧ Qlt_bool u (1 / inject_Z (Z.of_nat (size search_space)))%Q
                           = false.
Proof.
  intros Hok Hnone Hmp Hc cg. subst cg.
  destruct (init_ok_inv _ _ _ _ Hok) as (_ & (c' & Hc' & _ & Hchild) & _).
  rewrite Hnone in Hchild. destruct Hchild as (cg' & Hcg & Hcall).
  apply child_init_ok in Hcg as (_ & _ & _ & ->). rewrite Hmp in Hcall.
  assert (c' = c) as -> by congruence.
  split; [exact Hcall |].
  intros study search_space parents w w1 child Hrec.
  split; [reflexivity |].
  assert (length (map_to_list search_space).*1 = size search_space) as Hlen.
  { by rewrite length_fmap, length_map_to_list. }
  rewrite Hcall.
  unfold NSGAIIChildGenerationStrategy__call__, mbind, M_bind. rewrite Hrec.
  unfold with_rng, effective_mutation_prob. simpl.
  destruct (mutation_pass _ _ child (rng w1)) as [result r2] eqn:Hmut.
  eexists _, _. split; [reflexivity |]. split; [exact Hlen |].
  split.
  - simpl. rewrite <- Hlen.
    change r2 with (result, r2).2. rewrite <- Hmut. apply mutation_pass_rng.
  - intros name v.
    pose proof (mutation_pass_lookup
                  (1 / inject_Z (Z.of_nat (size search_space)))%Q
                  (map_to_list search_space).*1 child (rng w1) name v
                  (NoDup_fst_map_to_list _)) as Hlook.
    rewrite Hlen, Hmut in Hlook. exact Hlook.
Qed.

End Properties.

Lemma select_parent_pool_witness :
  select_parent example_sampler example_study 2 example_world
  = _elite_population_selection_strategy example_sampler example_study
      (example_population ++ example_parents)
      (log (EvElite (example_population ++ example_parents)) example_world).2
  ∧ trace (log (EvElite (example_population ++ example_parents)) example_world).2
    = trace example_world ++ [EvElite (example_population ++ example_parents)]
  ∧ (∀ t, t ∈ example_parents → t ∈ example_population ++ example_parents)
  ∧ (example_parents ≠ [] → example_population ++ example_parents ≠ example_population).
Proof.
  apply (select_parent_pool example_sampler example_study 2
           example_world example_world example_world);
    vm_compute; reflexivity.
Defined.

Lemma sample_relative_parents_witness :
  sample_relative example_sampler example_study (evaluated 1 [2; 3]%Q None)
                  example_search_space_value example_world
  = (Ok ∅, example_world).
Proof.
  apply (sample_relative_parents example_sampler example_study
           (evaluated 1 [2; 3]%Q None) example_search_space_value
           example_world example_world example_world 0 []);
    reflexivity.
Defined.

Lemma after_trial_assertion_witness :
  after_trial example_sampler example_study (evaluated 1 [2; 3]%Q None)
              RUNNING None example_world
  = (Raise AssertionError, example_world).
Proof.
  destruct (after_trial_assertion example_sampler example_study
              (evaluated 1 [2; 3]%Q None) RUNNING None example_world)
    as (Hstates & Hfail & _).
  apply Hfail, Hstates. by left.
Defined.



Lemma dominates_strict_partial_order_witness :
  dominates true [MINIMIZE; MINIMIZE]
            (evaluated 0 [1; 1]%Q None) (evaluated 2 [3; 3]%Q None) = true
  ∧ ((dominates true [MINIMIZE; MINIMIZE]
                (evaluated 0 [1; 4]%Q None) (evaluated 1 [2; 3]%Q None) = true
      ∧ dominates true [MINIMIZE; MINIMIZE]
                  (evaluated 1 [2; 3]%Q None) (evaluated 0 [1; 4]%Q None) = false)
     ∨ (dominates true [MINIMIZE; MINIMIZE]
                  (evaluated 0 [1; 4]%Q None) (evaluated 1 [2; 3]%Q None) = false
        ∧ dominates true [MINIMIZE; MINIMIZE]
                    (evaluated 1 [2; 3]%Q None) (evaluated 0 [1; 4]%Q None) = true)
     ∨ (dominates true [MINIMIZE; MINIMIZE]
                  (evaluated 0 [1; 4]%Q None) (evaluated 1 [2; 3]%Q None) = false
        ∧ dominates true [MINIMIZE; MINIMIZE]
                    (evaluated 1 [2; 3]%Q None) (evaluated 0 [1; 4]%Q None) = false)).
Proof.
  split.
  - destruct (dominates_strict_partial_order true [MINIMIZE; MINIMIZE]
                (evaluated 0 [1; 1]%Q None) (evaluated 1 [2; 2]%Q None)
                (evaluated 2 [3; 3]%Q None)) as (_ & _ & Htrans & _).
    apply Htrans; reflexivity.
  - destruct (dominates_strict_partial_order true [MINIMIZE; MINIMIZE]
                (evaluated 0 [1; 4]%Q None) (evaluated 1 [2; 3]%Q None)
                (evaluated 2 [3; 3]%Q None)) as (_ & _ & _ & Hcases).
    apply Hcases; [reflexivity | reflexivity | discriminate].
Defined.

Lemma select_size_witness :
  select false [MINIMIZE; MINIMIZE] example_trials 9 ≡ₚ example_trials
  ∧ length (select false [MINIMIZE; MINIMIZE] example_trials 9)
    = length example_trials.
Proof.
  destruct (select_size false [MINIMIZE; MINIMIZE] example_trials 9)
    as (_ & Hall & _).
  apply Hall. simpl. lia.
Defined.

Lemma after_trial_not_complete_witness :
  constraints_func constrained_config = Some violated
  ∧ (∃ w', after_trial constrained_sampler example_study
             (evaluated 1 [2; 3]%Q None) PRUNED None example_world = (Ok tt, w')
           ∧ storage w' = storage example_world
           ∧ trace w' = trace example_world
                        ++ [EvAfterTrial (evaluated 1 [2; 3]%Q None) PRUNED]
           ∧ (∀ t, EvConstraints t ∈ trace w'
                   → EvConstraints t ∈ trace example_world))
  ∧ (∃ w', after_trial constrained_sampler example_study
             (evaluated 1 [2; 3]%Q None) COMPLETE None example_world
           = (Ok tt, w')
           ∧ storage w'
             = alter (with_constraints [1 # 10]%Q) 1 (storage example_world)
           ∧ trace w'
             = trace example_world
               ++ [EvAfterTrial (evaluated 1 [2; 3]%Q None) COMPLETE;
                   EvConstraints (evaluated 1 [2; 3]%Q None)]).
Proof.
  assert (NSGAIISampler__init__ constrained_config example_world
          = (Ok constrained_sampler, constrained_built.2)) as Hinit
    by reflexivity.
  destruct (after_trial_not_complete constrained_config example_world
              constrained_built.2 constrained_sampler example_study
              (evaluated 1 [2; 3]%Q None) None example_world Hinit eq_refl)
    as (Hnot & Hcomplete).
  split; [reflexivity |]. split.
  - apply Hnot. by right.
  - apply (Hcomplete violated [1 # 10]%Q); reflexivity.
Defined.

Lemma reseed_rng_entropy_witness :
  rng (reseed_rng example_sampler example_world).2
  = rng (reseed_rng built_sampler other_state_world).2.
Proof.
  destruct (reseed_rng_entropy example_sampler built_sampler
              example_world other_state_world 3) as (_ & _ & _ & Hsame & _);
    [reflexivity | exact Hsame].
Defined.

(** C7 as stated fails: two samplers in the same state, reseeded the same
    way, draw different values when the operating system hands them different
    entropy. *)
Lemma reseed_rng_not_deterministic :
  ¬ (∀ (self1 self2 : NSGAIISampler) (w1 w2 : World),
       rng w1 = rng w2 → random_sampler w1 = random_sampler w2 →
       storage w1 = storage w2 → urandom_pos w1 = urandom_pos w2 →
       draws 1 (rng (reseed_rng self1 w1).2)
       = draws 1 (rng (reseed_rng self2 w2).2)).
Proof.
  intros Hall.
  specialize (Hall example_sampler example_sampler example_world
                   other_entropy_world eq_refl eq_refl eq_refl eq_refl).
  discriminate Hall.
Qed.

Lemma infer_relative_search_space_spec_witness :
  ∃ result,
    infer_relative_search_space example_sampler example_study
      (evaluated 1 [2; 3]%Q None) example_world = (Ok result, example_world)
    ∧ result = filter (λ kv, single kv.2 = false) example_search_space_value
    ∧ result !! "y" = None.
Proof.
  assert (calculate example_study example_world
          = (Ok example_search_space_value, example_world)) as Hcalc
    by reflexivity.
  destruct (infer_relative_search_space_spec example_sampler example_study
              (evaluated 1 [2; 3]%Q None) example_world example_world
              example_search_space_value Hcalc)
    as (result & Hrun & Hfilter & _ & Hsingle & _).
  exists result. split; [exact Hrun |]. split; [exact Hfilter |].
  apply (Hsingle "y" [7]); reflexivity.
Defined.

Lemma default_mutation_prob_witness :
  _child_generation_strategy built_sampler
  = NSGAIIChildGenerationStrategy__call__
      (mkChildGeneration (9 # 10) None (1 # 2) (UniformCrossover (1 # 2)))
  ∧ effective_mutation_prob
      (mkChildGeneration (9 # 10) None (1 # 2) (UniformCrossover (1 # 2)))
      example_search_space_value
    = (1 / inject_Z (Z.of_nat (size example_search_space_value)))%Q.
Proof.
  assert (NSGAIISampler__init__ example_config example_world
          = (Ok built_sampler, example_built.2)) as Hinit by reflexivity.
  assert (recombine
            (mkChildGeneration (9 # 10) None (1 # 2) (UniformCrossover (1 # 2)))
            example_search_space_value example_parents example_world
          = (Ok example_child, example_recombined.2)) as Hrec by reflexivity.
  destruct (default_mutation_prob example_config example_world example_built.2
              built_sampler (UniformCrossover (1 # 2))
              Hinit eq_refl eq_refl eq_refl) as (Hcall & Hpass).
  split; [exact Hcall |].
  destruct (Hpass example_study example_search_space_value example_parents
              example_world example_recombined.2 example_child Hrec)
    as (Hprob & _).
  exact Hprob.
Defined.

(** * Further properties of the sampler *)

Section SamplerProperties.

Context `{E : Externals} `{B : !BaseGASampler} `{ISS : !IntersectionSearchSpace}
        `{BS : !BootstrapSampling}.

(** ** Construction *)

(** X1.  With a custom child generation strategy supplied, construction
    succeeds exactly when [population_size] is at least 2, the crossover is
    [None] with [swapping_prob] in [0,1] or is a [BaseCrossover],
    [population_size] is at least its [n_parents], and the seed is absent or
    one that numpy accepts; [mutation_prob] and [crossover_prob] play no
    role, and every failure is a [ValueError] raised before anything is
    created. *)
Theorem init_with_custom_child (cfg : Config) (w : World) (s : ChildStrategy) :
  child_generation_strategy cfg = Some s →
  ((∃ self w', NSGAIISampler__init__ cfg w = (Ok self, w'))
   ↔ 2 ≤ population_size cfg
     ∧ (∃ c, n_parents c ≤ population_size cfg
             ∧ match crossover_arg cfg with
               | CrossoverNone =>
                   in_unit_interval (swapping_prob cfg) = true
                   ∧ c = UniformCrossover (swapping_prob cfg)
               | CrossoverObject c' => c = c'
               | NotACrossover => False
               end)
     ∧ match seed cfg with
       | Some z => 0 ≤ z < 4294967296
       | None => True
       end)
  ∧ ((∃ self w', NSGAIISampler__init__ cfg w = (Ok self, w'))
     ∨ NSGAIISampler__init__ cfg w = (Raise ValueError, w)).
Proof.
  intros Hchild.
  assert (∀ c, resolved_crossover cfg = Some c
               ↔ match crossover_arg cfg with
                 | CrossoverNone =>
                     in_unit_interval (swapping_prob cfg) = true
                     ∧ c = UniformCrossover (swapping_prob cfg)
                 | CrossoverObject c' => c = c'
                 | NotACrossover => False
                 end) as Hres.
  { intros c. unfold resolved_crossover, UniformCrossover__init__.
    destruct (crossover_arg cfg) as [| c' |].
    - destruct (in_unit_interval (swapping_prob cfg)).
      + split; [intros [= <-]; done | intros [_ ->]; done].
      + split; [done | intros [? _]; done].
    - split; [intros [= <-]; done | intros ->; done].
    - split; [done | done]. }
  assert (∀ z, valid_seed z = true ↔ 0 ≤ z < 4294967296) as Hvs.
  { intros z. unfold valid_seed. rewrite andb_true_iff. lia. }
  assert (2 ≤ population_size cfg
          ∧ (∃ c, resolved_crossover cfg = Some c
                  ∧ n_parents c ≤ population_size cfg)
          ∧ match seed cfg with
            | Some z => valid_seed z = true
            | None => True
            end →
          ∃ self w', NSGAIISampler__init__ cfg w = (Ok self, w')) as Hsuff.
  { intros (Hpop & (c & Hc & Hn) & Hsd). unfold NSGAIISampler__init__.
    destruct (Z.ltb_spec (population_size cfg) 2); [lia |].
    rewrite Hc. destruct (Z.ltb_spec (population_size cfg) (n_parents c)); [lia |].
    rewrite Hchild. init_seed cfg; try congruence;
      eexists _, _; reflexivity. }
  assert ((∃ self w', NSGAIISampler__init__ cfg w = (Ok self, w')) →
          match seed cfg with
          | Some z => valid_seed z = true
          | None => True
          end) as Hseedok.
  { intros (self & w' & Hok). revert Hok. unfold NSGAIISampler__init__.
    destruct (population_size cfg <? 2); [discriminate |].
    destruct (resolved_crossover cfg) as [c |]; [| discriminate].
    destruct (population_size cfg <? n_parents c); [discriminate |].
    init_seed cfg; [done | discriminate | done]. }
  split.
  - split.
    + intros Hex. pose proof (Hseedok Hex) as Hsd.
      destruct Hex as (self & w' & Hok).
      destruct (init_ok_inv _ _ _ _ Hok) as (Hpop & (c & Hc & Hn & _) & _).
      split; [done |]. split.
      * exists c. split; [done | by apply Hres].
      * destruct (seed cfg); [by apply Hvs | done].
    + intros (Hpop & (c & Hn & Hc) & Hsd). apply Hsuff.
      split; [done |]. split.
      * exists c. split; [by apply Hres | done].
      * destruct (seed cfg); [by apply Hvs | done].
  - destruct (population_size cfg <? 2) eqn:Hpop.
    { right. unfold NSGAIISampler__init__. by rewrite Hpop. }
    destruct (resolved_crossover cfg) as [c |] eqn:Hc.
    + destruct (population_size cfg <? n_parents c) eqn:Hnp.
      * right. unfold NSGAIISampler__init__. by rewrite Hpop, Hc, Hnp.
      * destruct (seed cfg) as [z |] eqn:Hseed.
        -- destruct (valid_seed z) eqn:Hvalid.
           ++ left. apply Hsuff. rewrite ?Hseed, ?Hvalid.
              split; [lia |]. split; [exists c; split; [done | lia] | done].
           ++ right. unfold NSGAIISampler__init__.
              rewrite Hpop, Hc, Hnp. unfold mbind, M_bind, new_random_state.
              rewrite Hseed, Hvalid. reflexivity.
        -- left. apply Hsuff. rewrite ?Hseed, ?Hvalid.
           split; [lia |]. split; [exists c; split; [done | lia] | done].
    + right. unfold NSGAIISampler__init__. by rewrite Hpop, Hc.
Qed.


(** X3.  Construction never touches the trial store or the trace, whether
    it succeeds or raises. *)
Theorem init_frame (cfg : Config) (w : World) :
  storage (NSGAIISampler__init__ cfg w).2 = storage w
  ∧ trace (NSGAIISampler__init__ cfg w).2 = trace w
  ∧ (urandom_pos w ≤ urandom_pos (NSGAIISampler__init__ cfg w).2)%nat.
Proof.
  unfold NSGAIISampler__init__.
  destruct (population_size cfg <? 2); [simpl; auto |].
  destruct (resolved_crossover cfg) as [c |]; [| simpl; auto].
  destruct (population_size cfg <? n_parents c); [simpl; auto |].
  init_seed cfg; [| auto |].
  all: destruct (child_generation_strategy cfg); simpl; [auto with lia |].
  all: destruct (NSGAIIChildGenerationStrategy__init__ _ _ _ c); simpl;
    auto with lia.
Qed.

(** X4.  The strategies supplied to the constructor are the ones the
    methods run: [select_parent] applies the supplied elite selection
    strategy to the pool, [sample_relative] the supplied child generation
    strategy to a non-empty parent population, and [after_trial] the supplied
    after-trial strategy before the bootstrap sampler's [after_trial]. *)
Theorem custom_strategies_are_run (cfg : Config) (w0 w0' : World)
    (self : NSGAIISampler) (study : Study) :
  NSGAIISampler__init__ cfg w0 = (Ok self, w0') →
  (∀ s g w w1 w2 population parents,
     elite_population_selection_strategy cfg = Some s →
     get_population study (g - 1) w = (Ok population, w1) →
     get_parent_population study (g - 1) w1 = (Ok parents, w2) →
     select_parent self study g w
     = s study (population ++ parents)
         (log (EvElite (population ++ parents)) w2).2)
  ∧ (∀ s trial search_space w w1 w2 g parents,
       child_generation_strategy cfg = Some s →
       get_trial_generation study trial w = (Ok g, w1) →
       get_parent_population study g w1 = (Ok parents, w2) →
       parents ≠ [] →
       sample_relative self study trial search_space w
       = s study search_space parents (log (EvChild search_space parents) w2).2)
  ∧ (∀ s trial st vs w,
       after_trial_strategy cfg = Some s →
       st ∈ [COMPLETE; FAIL; PRUNED] →
       after_trial self study trial st vs w
       = (s study trial st vs;;
          RandomSampler_after_trial study trial st vs)
           (log (EvAfterTrial trial st) w).2).
Proof.
  intros Hok.
  destruct (init_ok_inv _ _ _ _ Hok) as (_ & (c & _ & _ & Hchild) & Helite & Hafter).
  split; [| split].
  - intros s g w w1 w2 population parents Hs Hpop Hpar.
    rewrite Hs in Helite. unfold select_parent, mbind, M_bind.
    rewrite Hpop, Hpar, Helite. reflexivity.
  - intros s trial search_space w w1 w2 g parents Hs Hgen Hpar Hne.
    rewrite Hs in Hchild. unfold sample_relative, mbind, M_bind.
    rewrite Hgen, Hpar, Hchild.
    rewrite bool_decide_eq_false_2; [reflexivity |].
    destruct parents; [done | simpl; lia].
  - intros s trial st vs w Hs Hst.
    rewrite Hs in Hafter. unfold after_trial.
    rewrite bool_decide_eq_true_2 by done. rewrite Hafter. reflexivity.
Qed.

(** X12.  The defaults are built from the constructor's own arguments: the
    sampler keeps [population_size] and [constraints_func]; the default elite
    selection strategy gets that population size and that constraints
    function, the default after-trial strategy the same constraints function,
    and the default child generation strategy the three probabilities and the
    crossover that passed the checks, which is [UniformCrossover] of the
    configured [swapping_prob] when no crossover was given. *)
Theorem default_strategies_wiring (cfg : Config) (w w' : World)
    (self : NSGAIISampler) :
  NSGAIISampler__init__ cfg w = (Ok self, w') →
  _population_size self = population_size cfg
  ∧ _constraints_func self = constraints_func cfg
  ∧ (elite_population_selection_strategy cfg = None →
     _elite_population_selection_strategy self
     = NSGAIIElitePopulationSelectionStrategy (_population_size self)
         (_constraints_func self))
  ∧ (after_trial_strategy cfg = None →
     _after_trial_strategy self
     = NSGAIIAfterTrialStrategy (_constraints_func self))
  ∧ (child_generation_strategy cfg = None →
     ∃ c, resolved_crossover cfg = Some c
          ∧ (crossover_arg cfg = CrossoverNone →
             c = UniformCrossover (swapping_prob cfg))
          ∧ _child_generation_strategy self
            = NSGAIIChildGenerationStrategy__call__
                (mkChildGeneration (crossover_prob cfg) (mutation_prob cfg)
                                   (swapping_prob cfg) c)).
Proof.
  intros Hok.
  destruct (init_ok_inv _ _ _ _ Hok) as (_ & (c & Hc & _ & Hchild) & Helite & Hafter).
  assert (_population_size self = population_size cfg
          ∧ _constraints_func self = constraints_func cfg) as [Hpop Hcf].
  { revert Hok. unfold NSGAIISampler__init__.
    destruct (population_size cfg <? 2); [discriminate |].
    rewrite Hc.
    destruct (population_size cfg <? n_parents c); [discriminate |].
    init_seed cfg; [| discriminate |].
    all: destruct (child_generation_strategy cfg);
      [simpl; intros [= <- _]; done |].
    all: destruct (NSGAIIChildGenerationStrategy__init__ _ _ _ c); simpl;
      [| discriminate].
    all: intros [= <- _]; done. }
  rewrite Hpop, Hcf. split; [done |]. split; [done |].
  split; [intros Hnone; by rewrite Hnone in Helite |].
  split; [intros Hnone; by rewrite Hnone in Hafter |].
  intros Hnone. rewrite Hnone in Hchild. destruct Hchild as (cg & Hcg & Hcall).
  apply child_init_ok in Hcg as (_ & _ & _ & ->).
  exists c. split; [done |]. split; [| done].
  intros Hcn. unfold resolved_crossover, UniformCrossover__init__ in Hc.
  rewrite Hcn in Hc.
  destruct (in_unit_interval (swapping_prob cfg)); congruence.
Qed.

(** ** Failures of the collaborators *)

(** X5.  A failure of a collaborator propagates as it is and stops the
    method: when [get_population] raises, [select_parent] fetches no parent
    population and runs no strategy, and when [get_parent_population] raises
    it runs no strategy; [sample_relative] runs no child generation strategy
    when [get_trial_generation] or [get_parent_population] raises; and
    [infer_relative_search_space] raises what the intersection search space
    raises. *)
Theorem collaborator_failures_propagate (self : NSGAIISampler) (study : Study)
    (trial : FrozenTrial) (search_space : gmap string Distribution) (g : Z)
    (w : World) :
  (∀ e w1, get_population study (g - 1) w = (Raise e, w1) →
           select_parent self study g w = (Raise e, w1))
  ∧ (∀ population w1 e w2,
       get_population study (g - 1) w = (Ok population, w1) →
       get_parent_population study (g - 1) w1 = (Raise e, w2) →
       select_parent self study g w = (Raise e, w2))
  ∧ (∀ e w1, get_trial_generation study trial w = (Raise e, w1) →
             sample_relative self study trial search_space w = (Raise e, w1))
  ∧ (∀ g' w1 e w2,
       get_trial_generation study trial w = (Ok g', w1) →
       get_parent_population study g' w1 = (Raise e, w2) →
       sample_relative self study trial search_space w = (Raise e, w2))
  ∧ (∀ e w1, calculate study w = (Raise e, w1) →
             infer_relative_search_space self study trial w = (Raise e, w1)).
Proof.
  repeat split.
  - intros e w1 Hpop. unfold select_parent, mbind, M_bind. by rewrite Hpop.
  - intros population w1 e w2 Hpop Hpar.
    unfold select_parent, mbind, M_bind. by rewrite Hpop, Hpar.
  - intros e w1 Hgen. unfold sample_relative, mbind, M_bind. by rewrite Hgen.
  - intros g' w1 e w2 Hgen Hpar.
    unfold sample_relative, mbind, M_bind. by rewrite Hgen, Hpar.
  - intros e w1 Hcalc. unfold infer_relative_search_space, mbind, M_bind.
    by rewrite Hcalc.
Qed.

(** X6.  In [after_trial] the after-trial strategy runs first and the
    bootstrap sampler's [after_trial] second: when the strategy raises, the
    exception propagates and the bootstrap sampler is left as the strategy
    left it; when it returns, the bootstrap sampler's [after_trial] is applied
    once to the state the strategy left, and the store, the sampler's own
    generator and the trace stay as the strategy left them. *)
Theorem after_trial_order (self : NSGAIISampler) (study : Study)
    (trial : FrozenTrial) (st : TrialState) (vs : option (list Q))
    (w w' : World) :
  st ∈ [COMPLETE; FAIL; PRUNED] →
  (∀ e, _after_trial_strategy self study trial st vs
          (log (EvAfterTrial trial st) w).2 = (Raise e, w') →
        after_trial self study trial st vs w = (Raise e, w'))
  ∧ (_after_trial_strategy self study trial st vs
       (log (EvAfterTrial trial st) w).2 = (Ok tt, w') →
     ∃ w'', after_trial self study trial st vs w = (Ok tt, w'')
            ∧ random_sampler w''
              = rs_after_trial study trial st vs (random_sampler w')
            ∧ storage w'' = storage w' ∧ rng w'' = rng w'
            ∧ trace w'' = trace w').
Proof.
  intros Hst. unfold after_trial. rewrite bool_decide_eq_true_2 by done.
  split.
  - intros e Hraise. unfold mbind, M_bind, log in *. simpl in *.
    by rewrite Hraise.
  - intros Hret. unfold mbind, M_bind, log in *. simpl in *. rewrite Hret.
    eexists. split; [reflexivity |]. done.
Qed.

(** ** The relative search space *)

(** X7.  The relative search space is a sub-map of the intersection search
    space, so it is no larger; it is the whole intersection search space when
    no distribution is single-valued, and it is empty when all of them are,
    in particular when the intersection search space is empty. *)
Theorem infer_relative_search_space_bounds (self : NSGAIISampler)
    (study : Study) (trial : FrozenTrial) (w w1 : World)
    (space : gmap string Distribution) :
  calculate study w = (Ok space, w1) →
  ∃ result,
    infer_relative_search_space self study trial w = (Ok result, w1)
    ∧ result ⊆ space
    ∧ (size result ≤ size space)%nat
    ∧ ((∀ name d, space !! name = Some d → single d = false) → result = space)
    ∧ ((∀ name d, space !! name = Some d → single d = true) → result = ∅).
Proof.
  intros Hcalc. eexists. split.
  { unfold infer_relative_search_space, mbind, M_bind. rewrite Hcalc.
    reflexivity. }
  rewrite relative_fold_filter.
  split; [apply map_filter_subseteq |].
  split; [apply map_subseteq_size, map_filter_subseteq |].
  split.
  - intros Hnone. apply map_filter_id. intros name d Hd. simpl. eauto.
  - intros Hall. apply map_empty. intros name.
    apply map_lookup_filter_None. right. intros d Hd. simpl.
    rewrite (Hall name d Hd). done.
Qed.

(** X8.  Inferring the relative search space is idempotent: when the
    intersection search space is already a relative search space, it is
    returned unchanged. *)
Theorem infer_relative_search_space_idempotent (self : NSGAIISampler)
    (study : Study) (trial : FrozenTrial) (w w1 w' w1' : World)
    (space result : gmap string Distribution) :
  calculate study w = (Ok space, w1) →
  infer_relative_search_space self study trial w = (Ok result, w1) →
  calculate study w' = (Ok result, w1') →
  infer_relative_search_space self study trial w' = (Ok result, w1').
Proof.
  intros Hcalc Hinfer Hcalc'.
  unfold infer_relative_search_space, mbind, M_bind in *.
  rewrite Hcalc in Hinfer. rewrite Hcalc'.
  unfold mret, M_ret in *. injection Hinfer as Hresult.
  f_equal. f_equal.
  rewrite relative_fold_filter in *. subst result.
  apply map_filter_id. intros name d Hd.
  apply map_lookup_filter_Some in Hd as [_ Hd]. exact Hd.
Qed.

(** ** Independent sampling *)

(** X10.  [sample_independent] returns the bootstrap sampler's value and
    draws from the bootstrap sampler's generator only: the sampler's own
    generator, the store and the trace are left as they were, so an
    independent sample and a draw from the sampler's own generator give the
    same values and the same world in either order. *)
Theorem sample_independent_separate (self : NSGAIISampler) (study : Study)
    (trial : FrozenTrial) (param_name : string)
    (param_distribution : Distribution) (A : Type)
    (f : RandomState → A * RandomState) (w : World) :
  (sample_independent self study trial param_name param_distribution w).1
  = Ok (rs_sample_independent study trial param_name param_distribution
          (random_sampler w)).1
  ∧ rng (sample_independent self study trial param_name param_distribution w).2
    = rng w
  ∧ storage (sample_independent self study trial param_name param_distribution w).2
    = storage w
  ∧ trace (sample_independent self study trial param_name param_distribution w).2
    = trace w
  ∧ (v ← sample_independent self study trial param_name param_distribution;
     a ← with_rng f; mret (v, a)) w
    = (a ← with_rng f;
       v ← sample_independent self study trial param_name param_distribution;
       mret (v, a)) w.
Proof.
  unfold sample_independent, with_rng, mbind, M_bind, mret, M_ret.
  destruct (rs_sample_independent study trial param_name param_distribution
              (random_sampler w)) as [v s] eqn:Hv.
  simpl. destruct (f (rng w)) as [a r] eqn:Hf. simpl. rewrite Hv.
  repeat split.
Qed.

(** X11.  [before_trial] never raises and acts on the bootstrap sampler
    only: the sampler's own generator, the store and the trace are left as
    they were, and it commutes with a draw from the sampler's own
    generator. *)
Theorem before_trial_separate (self : NSGAIISampler) (study : Study)
    (trial : FrozenTrial) (A : Type) (f : RandomState → A * RandomState)
    (w : World) :
  (before_trial self study trial w).1 = Ok tt
  ∧ random_sampler (before_trial self study trial w).2
    = rs_before_trial study trial (random_sampler w)
  ∧ rng (before_trial self study trial w).2 = rng w
  ∧ storage (before_trial self study trial w).2 = storage w
  ∧ trace (before_trial self study trial w).2 = trace w
  ∧ (before_trial self study trial;; with_rng f) w
    = (a ← with_rng f; before_trial self study trial;; mret a) w.
Proof.
  unfold before_trial, update_random_sampler, set_random_sampler, with_rng,
    mbind, M_bind, mret, M_ret.
  simpl. destruct (f (rng w)) as [a r] eqn:Hf. simpl.
  repeat split.
Qed.

End SamplerProperties.

Lemma init_with_custom_child_witness :
  (∃ self w', NSGAIISampler__init__ custom_config example_world = (Ok self, w'))
  ∧ ¬ (∃ self w',
         NSGAIISampler__init__ bad_swapping_config example_world = (Ok self, w'))
  ∧ ¬ (∃ self w',
         NSGAIISampler__init__ bad_seed_config example_world = (Ok self, w')).
Proof.
  split; [| split].
  - destruct (init_with_custom_child custom_config example_world
                (λ _ _ _, mret ∅) eq_refl) as [[_ Hsuff] _].
    apply Hsuff. split; [simpl; lia |]. split; [| simpl; lia].
    exists (UniformCrossover (1 # 2)). split; [simpl; lia |].
    split; reflexivity.
  - destruct (init_with_custom_child bad_swapping_config example_world
                (λ _ _ _, mret ∅) eq_refl) as [[Hnec _] _].
    intros Hex. destruct (Hnec Hex) as (_ & (c & _ & Hsp & _) & _).
    discriminate Hsp.
  - destruct (init_with_custom_child bad_seed_config example_world
                (λ _ _ _, mret ∅) eq_refl) as [[Hnec _] _].
    intros Hex. destruct (Hnec Hex) as (_ & _ & Hsd). simpl in Hsd. lia.
Defined.


Lemma custom_strategies_are_run_witness :
  select_parent custom_sampler example_study 2 example_world
  = (Ok (take 1 (example_population ++ example_parents)),
     (log (EvElite (example_population ++ example_parents)) example_world).2).
Proof.
  assert (NSGAIISampler__init__ custom_config example_world
          = (Ok custom_sampler, custom_built.2)) as Hinit by reflexivity.
  assert (get_population example_study (2 - 1) example_world
          = (Ok example_population, example_world)) as Hpop
    by (vm_compute; reflexivity).
  assert (get_parent_population example_study (2 - 1) example_world
          = (Ok example_parents, example_world)) as Hpar
    by (vm_compute; reflexivity).
  destruct (custom_strategies_are_run custom_config example_world custom_built.2
              custom_sampler example_study Hinit) as (Helite & _).
  rewrite (Helite (λ _ pool, mret (take 1 pool)) 2 example_world example_world
             example_world example_population example_parents
             eq_refl Hpop Hpar).
  reflexivity.
Defined.

Lemma collaborator_failures_propagate_witness :
  @select_parent lcg_externals failing_base example_sampler example_study 2
                 example_world
  = (Raise UserError, example_world)
  ∧ @infer_relative_search_space lcg_externals failing_search_space
      example_sampler example_study (evaluated 1 [2; 3]%Q None) example_world
    = (Raise UserError, example_world).
Proof.
  destruct (@collaborator_failures_propagate lcg_externals failing_base
              failing_search_space example_sampler example_study
              (evaluated 1 [2; 3]%Q None) example_search_space_value 2
              example_world) as (Hpop & _ & _ & _ & Hcalc).
  split; [apply Hpop | apply Hcalc]; reflexivity.
Defined.

Lemma after_trial_order_witness :
  after_trial failing_after_sampler example_study (evaluated 1 [2; 3]%Q None)
              COMPLETE None example_world
  = (Raise UserError,
     (log (EvAfterTrial (evaluated 1 [2; 3]%Q None) COMPLETE) example_world).2).
Proof.
  destruct (after_trial_order failing_after_sampler example_study
              (evaluated 1 [2; 3]%Q None) COMPLETE None example_world
              (log (EvAfterTrial (evaluated 1 [2; 3]%Q None) COMPLETE)
                   example_world).2) as (Hraise & _).
  - repeat constructor.
  - apply Hraise. reflexivity.
Defined.

Lemma infer_relative_search_space_bounds_witness :
  ∃ result,
    infer_relative_search_space example_sampler example_study
      (evaluated 1 [2; 3]%Q None) example_world = (Ok result, example_world)
    ∧ result ⊆ example_search_space_value
    ∧ (size result ≤ size example_search_space_value)%nat.
Proof.
  assert (calculate example_study example_world
          = (Ok example_search_space_value, example_world)) as Hcalc
    by reflexivity.
  destruct (infer_relative_search_space_bounds example_sampler example_study
              (evaluated 1 [2; 3]%Q None) example_world example_world
              example_search_space_value Hcalc)
    as (result & Hrun & Hsub & Hsize & _).
  exists result. done.
Defined.

Lemma infer_relative_search_space_idempotent_witness :
  @infer_relative_search_space lcg_externals staged_search_space
    example_sampler example_study (evaluated 1 [2; 3]%Q None) traced_world
  = (Ok (<["x" := [1; 2; 3]]> ∅), traced_world).
Proof.
  apply (@infer_relative_search_space_idempotent lcg_externals
           staged_search_space example_sampler example_study
           (evaluated 1 [2; 3]%Q None) example_world example_world
           traced_world traced_world example_search_space_value);
    vm_compute; reflexivity.
Defined.

Lemma default_strategies_wiring_witness :
  _population_size built_sampler = 4
  ∧ _elite_population_selection_strategy built_sampler
    = NSGAIIElitePopulationSelectionStrategy (_population_size built_sampler)
        (_constraints_func built_sampler).
Proof.
  assert (NSGAIISampler__init__ example_config example_world
          = (Ok built_sampler, example_built.2)) as Hinit by reflexivity.
  destruct (default_strategies_wiring example_config example_world
              example_built.2 built_sampler Hinit) as (Hpop & _ & Helite & _).
  split; [exact Hpop | apply Helite; reflexivity].
Defined.
